(** * hotel_dashboard: ingestion, normalisation, alignment and decomposition

    A shallow embedding of [load_insee_data] and of the seasonal
    decomposition branch of [main] (src/hotel_dashboard.py), with the
    pandas, numpy and statsmodels calls those functions make modelled
    as executable functions.

    Conventions of the model.
    - Strings are byte strings.  Only ASCII letters change case.
    - A Python float is [Finite q] for the exact decimal (rational)
      value it denotes, an infinity or NaN.  A literal beyond the range
      of binary64 reads as an infinity or as zero; otherwise rounding to
      binary64 is not modelled: arithmetic on finite values is exact.
    - A first-of-month timestamp is the month number [12 * year + (month - 1)].
    - A function that can raise returns [option]; [None] is the raise. *)

From Stdlib Require Import List String Ascii Bool Arith ZArith QArith Lia.
From Stdlib Require Import Permutation Sorted.
From Stdlib Require Import Qabs Lqa Qround DecimalString DecimalZ DecimalPos.
Import ListNotations.

Local Open Scope string_scope.
Local Open Scope list_scope.

(** ** Python string operations used by the source *)

Module PyStr.

Definition dquote : ascii := ascii_of_nat 34.

Definition is_upper (c : ascii) : bool :=
  (65 <=? nat_of_ascii c)%nat && (nat_of_ascii c <=? 90)%nat.

Definition lower_char (c : ascii) : ascii :=
  if is_upper c then ascii_of_nat (nat_of_ascii c + 32) else c.

(** [str.lower()].  The marker tokens tested against its result contain
    only letters that no non-ASCII character lower-cases to. *)
Fixpoint lower (s : string) : string :=
  match s with
  | EmptyString => EmptyString
  | String c t => String (lower_char c) (lower t)
  end.

(** [sub in s] *)
Fixpoint contains (sub s : string) : bool :=
  if String.prefix sub s then true
  else match s with
       | EmptyString => false
       | String _ t => contains sub t
       end.

(** [s.endswith(suf)] *)
Definition endswith (s suf : string) : bool :=
  (String.length suf <=? String.length s)%nat &&
  String.eqb (substring (String.length s - String.length suf) (String.length suf) s) suf.

(** [s.replace(old, new)] for a one-character [old]. *)
Fixpoint replace (old : ascii) (new : string) (s : string) : string :=
  match s with
  | EmptyString => EmptyString
  | String c t =>
      if Ascii.eqb c old then new ++ replace old new t
      else String c (replace old new t)
  end.

(** ASCII white space as [str.strip()] and [float()] see it. *)
Definition is_space (c : ascii) : bool :=
  let n := nat_of_ascii c in
  ((9 <=? n) && (n <=? 13) || (28 <=? n) && (n <=? 32))%nat.

Fixpoint lstrip (s : string) : string :=
  match s with
  | String c t => if is_space c then lstrip t else s
  | EmptyString => EmptyString
  end.

Fixpoint rstrip (s : string) : string :=
  match s with
  | EmptyString => EmptyString
  | String c t =>
      let t' := rstrip t in
      if is_space c && String.eqb t' EmptyString then EmptyString
      else String c t'
  end.

Definition strip (s : string) : string := rstrip (lstrip s).

Definition is_digit (c : ascii) : bool :=
  (48 <=? nat_of_ascii c)%nat && (nat_of_ascii c <=? 57)%nat.

Definition digit_val (c : ascii) : Z := Z.of_nat (nat_of_ascii c - 48).

End PyStr.

(** ** Python floats *)

Inductive pyfloat : Type :=
| Finite (q : Q)
| Infinite (negative : bool)
| NaN.

Module PyFloat.
Import PyStr.

Definition isnan (x : pyfloat) : bool :=
  match x with NaN => true | _ => false end.

(** A run of digits, where one underscore may sit between two digits.
    Returns the accumulated value, the number of digits read and the
    rest of the input. *)
Fixpoint digitpart (acc : Z) (n : nat) (s : string) : Z * nat * string :=
  match s with
  | String c t =>
      if is_digit c then digitpart (10 * acc + digit_val c)%Z (S n) t
      else if Ascii.eqb c "_" && (0 <? n)%nat &&
              match t with String d _ => is_digit d | EmptyString => false end
           then digitpart acc n t
           else (acc, n, s)
  | EmptyString => (acc, n, s)
  end.

Definition sign (s : string) : bool * string :=
  match s with
  | String "-" t => (true, t)
  | String "+" t => (false, t)
  | _ => (false, s)
  end.

(** The exponent part: absent, or [e]/[E], an optional sign and digits. *)
Definition exponent (s : string) : option (Z * string) :=
  match s with
  | String c t =>
      if Ascii.eqb c "e" || Ascii.eqb c "E" then
        let (neg, t1) := sign t in
        let '(e, n, rest) := digitpart 0 0 t1 in
        if (n =? 0)%nat then None
        else Some (if neg then (- e)%Z else e, rest)
      else Some (0%Z, s)
  | EmptyString => Some (0%Z, s)
  end.

(** [m * 10 ^ e] as a reduced fraction. *)
Definition scale10 (m e : Z) : Q :=
  if (0 <=? e)%Z then Qmake (m * 10 ^ e)%Z 1
  else Qred (Qmake m (Z.to_pos (10 ^ (- e)))).

(** The ends of binary64.  A decimal of magnitude [2^1024 - 2^970] or
    more, half a step above the largest float, rounds to an infinity;
    one of magnitude [2^-1075] or less, half the least positive float,
    rounds to zero. *)
Definition overflow_threshold : Z := Eval cbv in (2 ^ 1024 - 2 ^ 970)%Z.
Definition underflow_threshold : positive := Eval cbv in (2 ^ 1075)%positive.

Definition in_range (neg : bool) (q : Q) : pyfloat :=
  if Qle_bool (inject_Z overflow_threshold) (Qabs q) then Infinite neg
  else if Qle_bool (Qabs q) (1 # underflow_threshold) then Finite 0
  else Finite q.

(** [float(s)]: [None] is the [ValueError]. *)
Definition float_of_string (s : string) : option pyfloat :=
  let (neg, body) := sign (strip s) in
  let word := lower body in
  if String.eqb word "inf" || String.eqb word "infinity" then Some (Infinite neg)
  else if String.eqb word "nan" then Some NaN
  else
    let '(ip, ni, r1) := digitpart 0 0 body in
    let '(m, nf, r2) :=
      match r1 with
      | String "." t => digitpart ip 0 t
      | _ => (ip, 0%nat, r1)
      end in
    if (ni + nf =? 0)%nat then None
    else
      match exponent r2 with
      | Some (e, EmptyString) =>
          Some (in_range neg (scale10 (if neg then (- m)%Z else m) (e - Z.of_nat nf)))
      | _ => None
      end.

End PyFloat.

(** ** pandas: the calls made by the source *)

(** Month number of a first-of-month timestamp. *)
Definition Timestamp : Type := Z.

Definition month_index (year month : Z) : Timestamp := (12 * year + (month - 1))%Z.

Module Pandas.
Import PyStr.

Definition all_digits (s : string) : bool :=
  forallb is_digit (list_ascii_of_string s).

Definition number (s : string) : Z :=
  fold_left (fun acc c => (10 * acc + digit_val c)%Z) (list_ascii_of_string s) 0%Z.

(** [pd.to_datetime(s, format='%Y-%m', errors='coerce')] on one string:
    four digits of year, a dash, one or two digits of month in 1..12,
    nothing else; there is no year 0; [None] is [NaT].  The source sets
    no further limit on the year, and the resolution pandas 3 parses
    text to holds every such date (with the nanoseconds of pandas 2 the
    months before October 1677 and after April 2262 were [NaT] too). *)
Definition to_datetime (s : string) : option Timestamp :=
  let y := substring 0 4 s in
  let m := substring 5 (String.length s - 5) s in
  if (String.length y =? 4)%nat && all_digits y
     && String.eqb (substring 4 1 s) "-"
     && (1 <=? String.length m)%nat && (String.length m <=? 2)%nat && all_digits m
     && (1 <=? number m)%Z && (number m <=? 12)%Z
     && (1 <=? number y)%Z
  then Some (month_index (number y) (number m))
  else None.

(** A cell as [read_csv] leaves it: text, or [None] for a missing field. *)
Definition Cell : Type := option string.

(** [astype(str)] *)
Definition astype_str (c : Cell) : string :=
  match c with Some s => s | None => "nan" end.

(** The table [read_csv(..., sep=';', skiprows=4, header=None)] returns. *)
Record RawTable : Type := mkRawTable {
  width : nat;                       (* len(df.columns) *)
  cells : list (list Cell)
}.

(** A row after the columns were cleaned (lines 62 to 69), before [dropna]. *)
Record Cleaned : Type := mkCleaned {
  cDate : option Timestamp;          (* NaT is None *)
  cValue : pyfloat;
  cStatus : string;
  cCols : list Cell                  (* Col_3, Col_4, ... *)
}.

(** A row of the cleaned table: one observation. *)
Record Row : Type := mkRow {
  Date : Timestamp;
  Value : pyfloat;
  Status : string;
  Cols : list Cell
}.

(** The two shapes of table [load_insee_data] can return.  Every row
    carries the same [Region], kept once. *)
Inductive DataFrame : Type :=
| RawFrame (t : RawTable) (Region : string)
| CleanFrame (value_col : string) (rows : list Row) (Region : string).

Definition len (df : DataFrame) : nat :=
  match df with
  | RawFrame t _ => List.length (cells t)
  | CleanFrame _ rows _ => List.length rows
  end.

(** [df.empty] *)
Definition empty (df : DataFrame) : bool := (len df =? 0)%nat.

(** [df.dropna(subset=['Date', value_col])] *)
Definition dropna (rows : list Cleaned) : list Row :=
  flat_map (fun c =>
    match cDate c with
    | Some d => if PyFloat.isnan (cValue c) then []
                else [mkRow d (cValue c) (cStatus c) (cCols c)]
    | None => []
    end) rows.

(** [df.sort_values('Date')]: ascending order of date.  The default
    sort of pandas is not stable: among rows of equal date the order is
    the input order up to 16 rows and left to the sorting routine of
    numpy beyond.  This model keeps the input order throughout; what is
    proved of a sorted table uses only that it is in ascending order
    and holds the same rows. *)
Fixpoint insert_by_date (r : Row) (l : list Row) : list Row :=
  match l with
  | [] => [r]
  | x :: t => if (Date r <=? Date x)%Z then r :: l else x :: insert_by_date r t
  end.

Fixpoint sort_values (l : list Row) : list Row :=
  match l with
  | [] => []
  | r :: t => insert_by_date r (sort_values t)
  end.

(** *** Series on a date index *)

Definition Series : Type := list (Timestamp * pyfloat).

(** [s.dropna()] *)
Definition dropna_series (s : Series) : Series :=
  filter (fun p => negb (PyFloat.isnan (snd p))) s.

Definition index_min (s : Series) : option Timestamp :=
  match map fst s with
  | [] => None
  | t :: ts => Some (fold_left Z.min ts t)
  end.

Definition index_max (s : Series) : option Timestamp :=
  match map fst s with
  | [] => None
  | t :: ts => Some (fold_left Z.max ts t)
  end.

(** [pd.date_range(lo, hi, freq='MS')] *)
Definition date_range (lo hi : Timestamp) : list Timestamp :=
  map (fun k => (lo + Z.of_nat k)%Z) (seq 0 (Z.to_nat (hi - lo + 1))).

Fixpoint has_duplicates (l : list Timestamp) : bool :=
  match l with
  | [] => false
  | t :: ts => existsb (Z.eqb t) ts || has_duplicates ts
  end.

Fixpoint lookup (t : Timestamp) (s : Series) : option pyfloat :=
  match s with
  | [] => None
  | (t', v) :: rest => if (t =? t')%Z then Some v else lookup t rest
  end.

(** [s.asfreq('MS')]: reindex on the months from the first to the last
    date.  A month absent from [s] is missing.  Raises on a duplicate
    date (reindexing needs a unique index). *)
Definition asfreq_MS (s : Series) : option (list (option pyfloat)) :=
  match index_min s, index_max s with
  | Some lo, Some hi =>
      if has_duplicates (map fst s) then None
      else Some (map (fun t => lookup t s) (date_range lo hi))
  | _, _ => Some []
  end.

(** *** Numeric columns, with [None] for NaN *)

Definition Qsum (l : list Q) : Q := fold_right Qplus 0 l.

(** The values that are not NaN. *)
Definition known (g : list (option Q)) : list Q :=
  flat_map (fun o => match o with Some v => [v] | None => [] end) g.

(** [s.mean()]: NaN is skipped; the mean of nothing is NaN. *)
Definition mean (g : list (option Q)) : option Q :=
  match known g with
  | [] => None
  | vs => Some (Qsum vs / inject_Z (Z.of_nat (List.length vs)))
  end.

(** [s.fillna(m)]: filling with NaN changes nothing. *)
Definition fillna (g : list (option Q)) (m : option Q) : list (option Q) :=
  match m with
  | Some v => map (fun o => match o with Some x => Some x | None => Some v end) g
  | None => g
  end.

(** Distance to, and value of, the next value that is not NaN. *)
Fixpoint next_valid (g : list (option Q)) : option (nat * Q) :=
  match g with
  | [] => None
  | Some v :: _ => Some (0%nat, v)
  | None :: t =>
      match next_valid t with
      | Some (k, v) => Some (S k, v)
      | None => None
      end
  end.

(** The part of the grid after a value [a] that lies [k] steps back:
    a gap closed by a later value [b] is filled on the straight line
    from [a] to [b]; a gap that runs to the end repeats [a]. *)
Fixpoint interpolate_after (a : Q) (k : nat) (g : list (option Q)) : list (option Q) :=
  match g with
  | [] => []
  | Some v :: t => Some v :: interpolate_after v 1 t
  | None :: t =>
      match next_valid t with
      | Some (j, b) =>
          Some (a + (b - a) * inject_Z (Z.of_nat k) / inject_Z (Z.of_nat (k + j + 1)))
      | None => Some a
      end :: interpolate_after a (S k) t
  end.

(** [s.interpolate(method='linear')]: equally spaced points, filled
    forward; NaN before the first value stays. *)
Fixpoint interpolate (g : list (option Q)) : list (option Q) :=
  match g with
  | [] => []
  | None :: t => None :: interpolate t
  | Some v :: t => Some v :: interpolate_after v 1 t
  end.

End Pandas.

(** Raising computations: [None] is the raise. *)
Definition bind {A B : Type} (m : option A) (k : A -> option B) : option B :=
  match m with Some a => k a | None => None end.

Notation "x <- m ;; k" := (bind m (fun x => k))
  (at level 61, m at next level, right associativity).

Fixpoint mapM {A B : Type} (f : A -> option B) (l : list A) : option (list B) :=
  match l with
  | [] => Some []
  | a :: t => b <- f a ;; bs <- mapM f t ;; Some (b :: bs)
  end.

(** ** statsmodels: [seasonal_decompose(x, model='additive', period=p)] *)

Module Statsmodels.

Record DecomposeResult : Type := mkDecomposeResult {
  observed : list Q;
  trend : list (option Q);
  seasonal : list (option Q);
  resid : list (option Q)
}.

(** The default filter: [[0.5] + [1] * (period - 1) + [0.5]] over
    [period] when [period] is even, [period] weights [1 / period] otherwise. *)
Definition default_filt (period : nat) : list Q :=
  let p := inject_Z (Z.of_nat period) in
  if Nat.even period
  then map (fun w => w / p) ([1 # 2] ++ repeat 1 (period - 1) ++ [1 # 2])
  else repeat (1 / p) period.

Fixpoint dot (a b : list Q) : Q :=
  match a, b with
  | x :: a', y :: b' => x * y + dot a' b'
  | _, _ => 0
  end.

(** [signal.convolve(x, filt, mode='valid')], for [x] at least as long
    as [filt]: one value for each full overlap. *)
Fixpoint convolve_valid (x filt : list Q) : list Q :=
  match x with
  | [] => []
  | _ :: t =>
      if (List.length filt <=? List.length x)%nat
      then dot (rev filt) x :: convolve_valid t filt
      else []
  end.

Definition pad_nans (head tail : nat) (r : list Q) : list (option Q) :=
  repeat None head ++ map Some r ++ repeat None tail.

(** [convolution_filter(x, filt, nsides=2)] *)
Definition convolution_filter (x filt : list Q) : list (option Q) :=
  let n := List.length filt in
  let half := ((n + 1) / 2)%nat in                (* ceil(n / 2) *)
  pad_nans (half - 1) (half - n mod 2) (convolve_valid x filt).

Definition sub_opt (a b : option Q) : option Q :=
  match a, b with
  | Some u, Some v => Some (u - v)
  | _, _ => None
  end.

(** [l[i::p]] for [p >= 1] *)
Definition slice_step {A : Type} (l : list A) (i p : nat) : list A :=
  flat_map (fun k => match nth_error l (i + k * p) with
                     | Some a => [a]
                     | None => []
                     end) (seq 0 (List.length l)).

(** [seasonal_mean(x, period)]: the NaN-skipping mean of every
    [period]-th value, for each of the [period] positions. *)
Definition seasonal_mean (x : list (option Q)) (period : nat) : list (option Q) :=
  map (fun i => Pandas.mean (slice_step x i period)) (seq 0 period).

(** [np.mean(a)]: NaN as soon as one entry is. *)
Definition np_mean (a : list (option Q)) : option Q :=
  vs <- mapM (fun o => o) a ;;
  Some (Pandas.Qsum vs / inject_Z (Z.of_nat (List.length vs))).

(** [np.tile(a, reps)[:nobs]] *)
Definition tile {A : Type} (a : list A) (reps nobs : nat) : list A :=
  firstn nobs (List.concat (repeat a reps)).

Definition seasonal_decompose (x : list (option Q)) (period : nat)
  : option DecomposeResult :=
  (* "This function does not handle missing values" *)
  xs <- mapM (fun o => o) x ;;
  let nobs := List.length xs in
  (* "x must have 2 complete cycles" *)
  if (nobs <? 2 * period)%nat then None
  else
    let trend := convolution_filter xs (default_filt period) in
    let detrended := map (fun p => sub_opt (Some (fst p)) (snd p)) (combine xs trend) in
    let period_averages := seasonal_mean detrended period in
    let m := np_mean period_averages in
    let period_averages := map (fun a => sub_opt a m) period_averages in
    let seasonal := tile period_averages (nobs / period + 1) nobs in
    let resid := map (fun p => sub_opt (fst p) (snd p)) (combine detrended seasonal) in
    Some (mkDecomposeResult xs trend seasonal resid).

End Statsmodels.

(** ** hotel_dashboard.py *)

Module HotelDashboard.
Import PyStr Pandas Statsmodels.

(** An entry of the archive: its name and what [read_csv] makes of its
    bytes ([None] when it raises under both encodings). *)
Record ZipEntry : Type := mkZipEntry {
  name : string;
  read_csv : option RawTable
}.

(** What [load_insee_data] does: returns a table, or reports an error
    with [st.error] and returns [None]. *)
Inductive LoadResult : Type :=
| Loaded (df : DataFrame)
| NoCsvFiles                     (* "No CSV files found in ..." *)
| LoadError.                     (* "Error loading data for ..." *)

Definition returned (r : LoadResult) : option DataFrame :=
  match r with Loaded df => Some df | _ => None end.

Definition csv_files (namelist : list string) : list string :=
  filter (fun f => endswith f ".csv") namelist.

Definition is_data_file (f : string) : bool :=
  contains "valeurs" (lower f) || contains "donnees" (lower f).

(** Lines 30 to 41: the entry to read, [None] when there is no CSV entry. *)
Definition select_data_file (namelist : list string) : option string :=
  match csv_files namelist with
  | [] => None
  | first :: _ =>
      match filter is_data_file (csv_files namelist) with
      | [] => Some first
      | data_file :: _ => Some data_file
      end
  end.

(** [zip_file.open(name)]: the last entry of that name. *)
Definition zip_open (zip : list ZipEntry) (f : string) : option ZipEntry :=
  find (fun e => String.eqb (name e) f) (rev zip).

(** Line 62: the value cell, as a float; [None] when [astype(float)] raises. *)
Definition clean_value (c : Cell) : option pyfloat :=
  PyFloat.float_of_string (replace "," "." (replace dquote "" (astype_str c))).

(** Lines 65 and 66 *)
Definition clean_date (c : Cell) : option Timestamp :=
  to_datetime (replace dquote "" (astype_str c)).

(** Line 69 *)
Definition clean_status (c : Cell) : string :=
  replace dquote "" (astype_str c).

Definition clean_row (r : list Cell) : option Cleaned :=
  v <- clean_value (nth 1 r None) ;;
  Some (mkCleaned (clean_date (nth 0 r None)) v (clean_status (nth 2 r None)) (skipn 3 r)).

(** Lines 52 to 79, inside the [try]: [None] when a statement raises. *)
Definition clean_table (t : RawTable) (region_name : string) : option DataFrame :=
  if (3 <=? width t)%nat then
    let value_col :=
      if contains "Hotels" region_name then "Hotel_Count" else "Occupancy_Rate" in
    cleaned <- mapM clean_row (cells t) ;;
    Some (CleanFrame value_col (sort_values (dropna cleaned)) region_name)
  else Some (RawFrame t region_name).

(** [response] is the archive behind the URL, [None] when the request
    or the opening of the archive raises. *)
Definition load_insee_data (response : option (list ZipEntry)) (region_name : string)
  : LoadResult :=
  match response with
  | None => LoadError
  | Some zip =>
      match select_data_file (map name zip) with
      | None => NoCsvFiles
      | Some data_file =>
          match (e <- zip_open zip data_file ;; t <- read_csv e ;;
                 clean_table t region_name) with
          | Some df => Loaded df
          | None => LoadError
          end
      end
  end.

Definition process_data (df : option DataFrame) : option DataFrame :=
  match df with
  | Some d => if empty d then None else Some d
  | None => None
  end.

(** What the decomposition column of a region shows. *)
Inductive Outcome : Type :=
| Decomposed (ts : list (option Q)) (decomposition : DecomposeResult)
| Skipped                        (* nothing is shown *)
| NotAvailable.                  (* "Seasonal decomposition not available ..." *)

(** [df.set_index('Date')['Occupancy_Rate']]: [None] is the [KeyError]. *)
Definition occupancy_series (df : DataFrame) : option Series :=
  match df with
  | CleanFrame value_col rows _ =>
      if String.eqb value_col "Occupancy_Rate"
      then Some (map (fun r => (Date r, Value r)) rows)
      else None
  | RawFrame _ _ => None
  end.

(** The grid as numbers, [None] for NaN; no result when a value is infinite. *)
Definition finite_grid (g : list (option pyfloat)) : option (list (option Q)) :=
  mapM (fun o => match o with
                 | Some (Finite q) => Some (Some q)
                 | Some NaN | None => Some None
                 | Some (Infinite _) => None
                 end) g.

(** Lines 356 to 363: the aligned series. *)
Definition aligned (g : list (option Q)) : list (option Q) :=
  let ts := interpolate g in
  fillna ts (mean ts).

(** Lines 356 to 363 on a series of finite values; [None] when
    [asfreq] raises or a value is infinite. *)
Definition aligned_series (s : Series) : option (list (option Q)) :=
  g <- asfreq_MS (dropna_series s) ;;
  gq <- finite_grid g ;;
  Some (aligned gq).

(** Lines 352 to 366 and 433 to 434, for one region.  An infinite
    value is kept as it is by lines 360 and 363 and makes
    [seasonal_decompose] raise, so that case is decided on the length
    of the grid alone. *)
Definition seasonal_decomposition (selected : bool) (processed : option DataFrame)
  : Outcome :=
  match processed with
  | Some df =>
      if selected && (24 <? len df)%nat then
        match (ts <- occupancy_series df ;; asfreq_MS (dropna_series ts)) with
        | None => NotAvailable
        | Some g =>
            match finite_grid g with
            | Some gq =>
                let ts := aligned gq in
                if (24 <? List.length ts)%nat then
                  match seasonal_decompose ts 12 with
                  | Some d => Decomposed ts d
                  | None => NotAvailable
                  end
                else Skipped
            | None =>
                if (24 <? List.length g)%nat then NotAvailable else Skipped
            end
        end
      else Skipped
  | None => Skipped
  end.

End HotelDashboard.

(** ** The specification's notions, for comparison with the code *)

Module Spec.
Import PyStr Pandas Statsmodels HotelDashboard.

(** The Observation a record stands for: one when its date parses as
    YYYY-MM and its value parses as a number, none otherwise. *)
Definition observation (r : list Cell) : list Row :=
  match clean_date (nth 0 r None), clean_value (nth 1 r None) with
  | Some d, Some v =>
      if PyFloat.isnan v then []
      else [mkRow d v (clean_status (nth 2 r None)) (skipn 3 r)]
  | _, _ => []
  end.

(** The centred moving average of order 12 at index [i]: the eleven
    values around [i] and half of each of the two values six steps away,
    over 12. *)
Definition centered_ma12 (x : list Q) (i : nat) : Q :=
  (nth (i - 6) x 0 / 2
   + Qsum (map (fun k => nth (i - 5 + k) x 0) (seq 0 11))
   + nth (i + 6) x 0 / 2) / 12.

(** The trend, the detrended values and the seasonal indices that
    [seasonal_decompose] computes for period 12 from values [x]. *)
Definition trend_of (x : list Q) : list (option Q) :=
  convolution_filter x (default_filt 12).

Definition detrended_of (x : list Q) : list (option Q) :=
  map (fun p => sub_opt (Some (fst p)) (snd p)) (combine x (trend_of x)).

Definition seasonal_indices (x : list Q) : list (option Q) :=
  let a := seasonal_mean (detrended_of x) 12 in
  map (fun v => sub_opt v (np_mean a)) a.

(** The aligned series of a table, when there is one. *)
Definition aligned_of (df : DataFrame) : option (list (option Q)) :=
  s <- occupancy_series df ;; aligned_series s.

Definition cell_row (date value status : string) : list Cell :=
  [Some date; Some value; Some status].

(** The scenario of the three records, the last with a malformed value. *)
Definition scenario_rows : RawTable :=
  mkRawTable 3 [cell_row "2020-01" "10,0" "A";
                cell_row "2020-02" "20,0" "A";
                cell_row "2020-03" "xx" "A"].

(** Two valid records of the same month. *)
Definition same_month_rows : RawTable :=
  mkRawTable 3 [cell_row "2020-01" "10,0" "A";
                cell_row "2020-01" "20,0" "A"].

(** A table of two columns. *)
Definition narrow_rows : RawTable :=
  mkRawTable 2 [[Some "2020-01"; Some "xx"]; [Some "2020-01"; Some "3,5"]].

Definition occupancy_frame (rows : list (Timestamp * Q)) : DataFrame :=
  CleanFrame "Occupancy_Rate"
    (map (fun p => mkRow (fst p) (Finite (snd p)) "A" []) rows) "Marne".

(** Two observations three years apart. *)
Definition sparse_frame : DataFrame :=
  occupancy_frame [(month_index 2020 1, 50); (month_index 2023 1, 60)].

(** January to December 2020. *)
Definition year_2020_frame : DataFrame :=
  occupancy_frame (map (fun k => ((month_index 2020 1 + Z.of_nat k)%Z, 50)) (seq 0 12)).

(** [n] consecutive months from January 2020, with values 0, 1, 2, ... *)
Definition ramp_frame (n : nat) : DataFrame :=
  occupancy_frame
    (map (fun k => ((month_index 2020 1 + Z.of_nat k)%Z, inject_Z (Z.of_nat k))) (seq 0 n)).

Definition ramp (n : nat) : list (option Q) :=
  map (fun k => Some (inject_Z (Z.of_nat k))) (seq 0 n).

(** Ascending order of date, equal dates allowed. *)
Definition by_date (a b : Row) : Prop := (Date a <= Date b)%Z.

(** A grid with no missing point. *)
Definition complete (g : list (option Q)) : Prop := ~ In None g.



(** A valid record followed by one whose value is malformed. *)
Definition valid_then_malformed_rows : RawTable :=
  mkRawTable 3 [cell_row "2020-01" "3,5" "A";
                cell_row "2020-02" "xx" "A"].

End Spec.

(** ** hotel_dashboard.py: the rest of [main] *)

Module Dashboard.
Import PyStr Pandas Statsmodels HotelDashboard.

(** The value of an observation as a number, NaN when it is not finite. *)
Definition finite_value (v : pyfloat) : option Q :=
  match v with Finite q => Some q | _ => None end.

(** Lines 415 and 416 (and 496 and 497): the series of the other
    region, aligned again for the shared range of the seasonal charts.
    The fill takes the mean of the series before it is reindexed.
    [None] when [asfreq] raises or a value is infinite. *)
Definition aligned_series_temp (s : Series) : option (list (option Q)) :=
  let ts_temp := dropna_series s in
  g <- asfreq_MS ts_temp ;;
  gq <- finite_grid g ;;
  Some (fillna (interpolate gq) (mean (map (fun p => finite_value (snd p)) ts_temp))).

(** Comparison and arithmetic of floats, exact on finite values.
    A comparison with NaN is false. *)
Definition lt (a b : pyfloat) : bool :=
  match a, b with
  | NaN, _ | _, NaN => false
  | Infinite na, Infinite nb => na && negb nb
  | Infinite na, Finite _ => na
  | Finite _, Infinite nb => negb nb
  | Finite x, Finite y => negb (Qle_bool y x)
  end.

Definition add (a b : pyfloat) : pyfloat :=
  match a, b with
  | NaN, _ | _, NaN => NaN
  | Infinite na, Infinite nb => if Bool.eqb na nb then Infinite na else NaN
  | Infinite na, Finite _ => Infinite na
  | Finite _, Infinite nb => Infinite nb
  | Finite x, Finite y => Finite (x + y)
  end.

(** [a / n] for a count [n] of at least 1 *)
Definition div_count (a : pyfloat) (n : nat) : pyfloat :=
  match a with
  | Finite x => Finite (x / inject_Z (Z.of_nat n))
  | _ => a
  end.

(** The builtins [min(a, b)] and [max(a, b)]: the first argument
    unless the second is strictly beyond it. *)
Definition py_min (a b : pyfloat) : pyfloat := if lt b a then b else a.
Definition py_max (a b : pyfloat) : pyfloat := if lt a b then b else a.

(** [s.min()], [s.max()] and [s.mean()] on a column: NaN is skipped,
    and the result on nothing is NaN. *)
Definition skipna (values : list pyfloat) : list pyfloat :=
  filter (fun v => negb (PyFloat.isnan v)) values.

Definition column_min (values : list pyfloat) : pyfloat :=
  match skipna values with
  | [] => NaN
  | v :: vs => fold_left py_min vs v
  end.

Definition column_max (values : list pyfloat) : pyfloat :=
  match skipna values with
  | [] => NaN
  | v :: vs => fold_left py_max vs v
  end.

Definition column_mean (values : list pyfloat) : pyfloat :=
  match skipna values with
  | [] => NaN
  | v :: vs => div_count (fold_left add vs v) (S (List.length vs))
  end.

(** [df[col]]: [None] is the [KeyError]. *)
Definition column (df : DataFrame) (col : string) : option (list pyfloat) :=
  match df with
  | CleanFrame value_col rows _ =>
      if String.eqb value_col col then Some (map Value rows) else None
  | RawFrame _ _ => None
  end.

(** ['Date' in df.columns and col in df.columns] *)
Definition has_columns (df : DataFrame) (col : string) : bool :=
  match df with
  | CleanFrame value_col _ _ => String.eqb value_col col
  | RawFrame _ _ => false
  end.

(** Lines 117 to 149: how [main] starts from the three tables of
    [get_hotel_data]. *)
Inductive Start : Type :=
| FailedAll                      (* "Failed to load data from all sources ..." *)
| NoData                         (* "No data available to display" *)
| Sources (available_sources : list string)
          (marne_processed france_processed grand_est_hotels_processed
             : option DataFrame).

Definition is_none {A : Type} (o : option A) : bool :=
  match o with None => true | Some _ => false end.

Definition main_start (marne_data france_data grand_est_hotels_data : option DataFrame)
  : Start :=
  if is_none marne_data && is_none france_data && is_none grand_est_hotels_data
  then FailedAll
  else
    let marne_processed :=
      if is_none marne_data then None else process_data marne_data in
    let france_processed :=
      if is_none france_data then None else process_data france_data in
    let grand_est_hotels_processed :=
      if is_none grand_est_hotels_data then None
      else process_data grand_est_hotels_data in
    let available_sources :=
      (if is_none marne_processed then [] else ["Marne"])
      ++ (if is_none france_processed then [] else ["France"]) in
    match available_sources with
    | [] => NoData
    | _ => Sources available_sources marne_processed france_processed
                   grand_est_hotels_processed
    end.

(** [name in selected_regions] *)
Definition selected (name : string) (selected_regions : list string) : bool :=
  existsb (String.eqb name) selected_regions.

(** Lines 164 to 197 (and 200 to 233 with the regions exchanged): the
    chart of a region. *)
Inductive Chart : Type :=
| NoChart                        (* the region is not selected or has no table *)
| ColumnsNotFound                (* "Required columns (Date, Occupancy_Rate) not found ..." *)
| Line (avg_val : pyfloat) (yaxis_range : option (pyfloat * pyfloat)).

(** [own] and [other] are the names of the two regions.  [None] is the
    [KeyError], which nothing catches. *)
Definition region_chart (own other : string) (selected_regions : list string)
    (own_processed other_processed : option DataFrame) : option Chart :=
  match own_processed with
  | Some df =>
      if selected own selected_regions then
        if has_columns df "Occupancy_Rate" then
          values <- column df "Occupancy_Rate" ;;
          let avg_val := column_mean values in
          match other_processed with
          | Some odf =>
              if selected other selected_regions then
                others <- column odf "Occupancy_Rate" ;;
                let all_min := py_min (column_min values) (column_min others) in
                let all_max := py_max (column_max values) (column_max others) in
                Some (Line avg_val
                        (Some (add all_min (Finite (- (2))), add all_max (Finite 2))))
              else Some (Line avg_val None)
          | None => Some (Line avg_val None)
          end
        else Some ColumnsNotFound
      else Some NoChart
  | None => Some NoChart
  end.

(** Lines 326 to 328: the direction shown for the number of hotels. *)
Inductive Trend : Type := Increasing | Decreasing | Stable.

(** [None] is the [IndexError] of [iloc] on a table without rows. *)
Definition trend_of_counts (values : list pyfloat) : option Trend :=
  match values with
  | [] => None
  | initial_count :: _ =>
      let recent_count := last values initial_count in
      Some (if lt initial_count recent_count then Increasing
            else if lt recent_count initial_count then Decreasing
            else Stable)
  end.

End Dashboard.

(** ** ESAT/esat_app.py *)

Module EsatApp.

(** [str(n)] and [f"{n}"] for an integer *)
Definition str_int (n : Z) : string := NilZero.string_of_int (Z.to_int n).

(** [f"{n:02d}"]: at least two characters, zeros in front *)
Definition pad2 (n : Z) : string :=
  let s := str_int n in
  if (String.length s <? 2)%nat then "0" ++ s else s.

(** [seconds // 60] and [seconds % 60], as integers *)
Definition mins_of (seconds : Q) : Z := Qfloor (seconds / 60).
Definition secs_of (seconds : Q) : Z := Qfloor (seconds - 60 * inject_Z (mins_of seconds)).

Definition format_time (seconds : Q) : string :=
  let mins := mins_of seconds in
  let secs := secs_of seconds in
  pad2 mins ++ ":" ++ pad2 secs.

(** A dictionary with string keys; the first entry of a key counts. *)
Definition Dict (V : Type) : Type := list (string * V).

Fixpoint get {V : Type} (d : Dict V) (k : string) : option V :=
  match d with
  | [] => None
  | (k', v) :: rest => if String.eqb k k' then Some v else get rest k
  end.

(** [k in d] *)
Definition has_key {V : Type} (d : Dict V) (k : string) : bool :=
  match get d k with Some _ => true | None => false end.

(** [f"{exam_id}_{q_num}"] *)
Definition key (exam_id : string) (q_num : Z) : string :=
  exam_id ++ "_" ++ str_int q_num.

(** Lines 283 to 290 of [practice_tab]. *)
Record Statistics : Type := mkStatistics {
  answered : nat;
  correct_count : nat;
  wrong_count : Z
}.

(** The loop of lines 285 to 288; [None] is the [IndexError] of
    [answers[i]]. *)
Fixpoint count_correct (exam_id : string) (questions : list Z) (answers : list string)
    (user_answers : Dict string) : option nat :=
  match questions with
  | [] => Some 0%nat
  | q_num :: qs =>
      match answers with
      | [] => None
      | a :: rest =>
          n <- count_correct exam_id qs rest user_answers ;;
          Some (match get user_answers (key exam_id q_num) with
                | Some user_answer => if String.eqb user_answer a then S n else n
                | None => n
                end)
      end
  end.

Definition statistics (exam_id : string) (questions : list Z) (answers : list string)
    (user_answers : Dict string) : option Statistics :=
  let answered :=
    List.length (filter (fun q => has_key user_answers (key exam_id q)) questions) in
  correct_count <- count_correct exam_id questions answers user_answers ;;
  Some (mkStatistics answered correct_count
          (Z.of_nat answered - Z.of_nat correct_count)).

(** An entry of the results of a saved session (lines 157 to 163). *)
Record Result : Type := mkResult {
  question : Z;
  user_answer : string;
  correct_answer : string;
  is_correct : option bool;
  time_spent : Q
}.

(** Lines 150 to 163 of [save_session_log]; [None] is the [IndexError]
    of [answers[i]]. *)
Fixpoint session_results (exam_id : string) (questions : list Z) (answers : list string)
    (user_answers : Dict string) (question_times : Dict Q) : option (list Result) :=
  match questions with
  | [] => Some []
  | q_num :: qs =>
      match answers with
      | [] => None
      | correct :: rest =>
          let ua := match get user_answers (key exam_id q_num) with
                    | Some a => a
                    | None => ""
                    end in
          let ok := if String.eqb ua "" then None else Some (String.eqb ua correct) in
          let spent := match get question_times (key exam_id q_num) with
                       | Some t => t
                       | None => 0
                       end in
          rs <- session_results exam_id qs rest user_answers question_times ;;
          Some (mkResult q_num ua correct ok spent :: rs)
      end
  end.

(** Lines 563 and 564 of [history_tab], for the results of one session. *)
Definition attempted (results : list Result) : nat :=
  List.length (filter (fun r => negb (String.eqb (user_answer r) "")) results).

Definition correct (results : list Result) : nat :=
  List.length (filter (fun r => match is_correct r with
                                | Some true => true
                                | _ => false
                                end) results).

(** [s.split(sep)] for a one-character separator *)
Fixpoint split (sep : ascii) (s : string) : list string :=
  match s with
  | EmptyString => [EmptyString]
  | String c t =>
      if Ascii.eqb c sep then EmptyString :: split sep t
      else match split sep t with
           | h :: rest => String c h :: rest
           | [] => [String c EmptyString]
           end
  end.

(** A session of the log. *)
Record Session : Type := mkSession {
  date : string;
  time : string;
  exam_id : string;
  results : list Result
}.

Definition underscore : ascii := "_"%char.

(** [exam_id.split('_')[0]] and [exam_id.split('_')[1]]; [None] is the
    [IndexError]. *)
Definition exam_type_year (exam_id : string) : option (string * string) :=
  match split underscore exam_id with
  | exam_type :: exam_year :: _ => Some (exam_type, exam_year)
  | _ => None
  end.

(** Lines 490 to 500 of [history_tab]: the sessions that pass the
    two filters. *)
Fixpoint filter_sessions (selected_type selected_year : string) (log_data : list Session)
  : option (list Session) :=
  match log_data with
  | [] => Some []
  | session :: rest =>
      ty <- exam_type_year (exam_id session) ;;
      let type_match := String.eqb selected_type "All" || String.eqb (fst ty) selected_type in
      let year_match := String.eqb selected_year "All" || String.eqb (snd ty) selected_year in
      kept <- filter_sessions selected_type selected_year rest ;;
      Some (if type_match && year_match then session :: kept else kept)
  end.

(** A session passes the filters of the history: its type and year
    are each selected, or the filter is [All]. *)
Definition session_matches (selected_type selected_year : string) (s : Session) : bool :=
  match exam_type_year (exam_id s) with
  | Some (exam_type, exam_year) =>
      (String.eqb selected_type "All" || String.eqb exam_type selected_type)
      && (String.eqb selected_year "All" || String.eqb exam_year selected_year)
  | None => false
  end.

End EsatApp.

Import PyStr Pandas Statsmodels HotelDashboard Spec.

(** * Properties *)

(** ** Raising computations *)

Lemma mapM_Some_Forall2 {A B : Type} (f : A -> option B) (l : list A) (l' : list B) :
  mapM f l = Some l' <-> Forall2 (fun a b => f a = Some b) l l'.
Proof.
  revert l'. induction l as [|a t IH]; intros l'; simpl.
  - split; intros H.
    + injection H as <-. constructor.
    + inversion H. reflexivity.
  - unfold bind. split; intros H.
    + destruct (f a) as [b|] eqn:Ea; [|discriminate].
      destruct (mapM f t) as [bs|] eqn:Et; [|discriminate].
      injection H as <-. constructor; [assumption|]. apply IH. reflexivity.
    + inversion H as [|? b ? bs Hab Ht]; subst.
      rewrite Hab. apply IH in Ht. rewrite Ht. reflexivity.
Qed.

Lemma mapM_None_Exists {A B : Type} (f : A -> option B) (l : list A) :
  mapM f l = None <-> Exists (fun a => f a = None) l.
Proof.
  induction l as [|a t IH]; simpl.
  - split; [discriminate | intros H; inversion H].
  - unfold bind. destruct (f a) as [b|] eqn:Ea.
    + destruct (mapM f t) as [bs|] eqn:Et.
      * split; [discriminate|]. intros H. inversion H; subst.
        -- congruence.
        -- apply IH in H1. discriminate.
      * split; [|reflexivity]. intros _. apply Exists_cons_tl. apply IH. reflexivity.
    + split; [|reflexivity]. intros _. apply Exists_cons_hd. assumption.
Qed.

Lemma mapM_total {A B : Type} (f : A -> option B) (l : list A) :
  Forall (fun a => f a <> None) l -> exists l', mapM f l = Some l'.
Proof.
  intros H. destruct (mapM f l) as [l'|] eqn:E; [eauto|].
  apply mapM_None_Exists in E. apply Exists_exists in E as (a & Ha & Hf).
  rewrite Forall_forall in H. exfalso. exact (H a Ha Hf).
Qed.

Lemma mapM_id_map_Some {A : Type} (l : list A) :
  mapM (fun o => o) (map Some l) = Some l.
Proof.
  induction l as [|a t IH]; simpl; [reflexivity|].
  unfold bind. rewrite IH. reflexivity.
Qed.

Lemma mapM_id_inv {A : Type} (l : list (option A)) (l' : list A) :
  mapM (fun o => o) l = Some l' -> l = map Some l'.
Proof.
  intros H. apply mapM_Some_Forall2 in H.
  induction H; simpl; congruence.
Qed.

(** ** Selection of the entry to read *)

Lemma select_data_file_None (namelist : list string) :
  select_data_file namelist = None <-> csv_files namelist = [].
Proof.
  unfold select_data_file. destruct (csv_files namelist) as [|first rest].
  - tauto.
  - destruct (filter is_data_file (first :: rest)); split; discriminate.
Qed.

Lemma filter_head_split {A : Type} (p : A -> bool) (l : list A) (a : A) (rest : list A) :
  filter p l = a :: rest ->
  exists pre post, l = pre ++ a :: post /\ forallb (fun x => negb (p x)) pre = true
                   /\ p a = true.
Proof.
  induction l as [|x t IH]; simpl; [discriminate|].
  destruct (p x) eqn:Ex; intros H.
  - injection H as -> _. exists [], t. simpl. auto.
  - destruct (IH H) as (pre & post & -> & Hpre & Ha).
    exists (x :: pre), post. simpl. rewrite Ex. auto.
Qed.

Lemma filter_nil_forallb {A : Type} (p : A -> bool) (l : list A) :
  filter p l = [] -> forallb (fun x => negb (p x)) l = true.
Proof.
  induction l as [|x t IH]; simpl; [reflexivity|].
  destruct (p x); [discriminate|]. exact IH.
Qed.

(** C9. The entry read is the first CSV entry whose lower-cased name
    contains [valeurs] or [donnees]; when no CSV entry has such a name
    it is the first CSV entry; and [load_insee_data] stops on the
    "No CSV files found" error, returning no table, exactly when the
    archive has no entry whose name ends in [.csv]. *)
Theorem C9_select_data_file (zip : list ZipEntry) (region_name : string) :
  let namelist := map name zip in
  (load_insee_data (Some zip) region_name = NoCsvFiles <-> csv_files namelist = [])
  /\ returned NoCsvFiles = None
  /\ (csv_files namelist = [] <->
      forall f, In f namelist -> endswith f ".csv" = false)
  /\ (csv_files namelist <> [] -> exists f, select_data_file namelist = Some f)
  /\ (forall f, select_data_file namelist = Some f ->
        In f namelist /\ endswith f ".csv" = true /\
        ((is_data_file f = true /\
          exists pre post, csv_files namelist = pre ++ f :: post /\
                           forallb (fun g => negb (is_data_file g)) pre = true)
         \/ (forallb (fun g => negb (is_data_file g)) (csv_files namelist) = true /\
             hd_error (csv_files namelist) = Some f))).
Proof.
  intros namelist. repeat split.
  - unfold load_insee_data. intros H.
    destruct (select_data_file (map name zip)) as [f|] eqn:E.
    + destruct (bind _ _); discriminate.
    + apply select_data_file_None. exact E.
  - intros H. apply select_data_file_None in H.
    unfold load_insee_data. fold namelist. rewrite H. reflexivity.
  - intros H f Hf. destruct (endswith f ".csv") eqn:E; [|reflexivity].
    assert (Hin : In f (csv_files namelist)) by (apply filter_In; auto).
    rewrite H in Hin. destruct Hin.
  - intros H. unfold csv_files. destruct (filter _ namelist) as [|f rest] eqn:E; [reflexivity|].
    assert (Hin : In f (filter (fun f => endswith f ".csv") namelist))
      by (rewrite E; left; reflexivity).
    apply filter_In in Hin as [Hin Hcsv]. rewrite (H f Hin) in Hcsv. discriminate.
  - intros H. destruct (select_data_file namelist) as [f|] eqn:E; [eauto|].
    apply select_data_file_None in E. contradiction.
  - unfold select_data_file in H.
    destruct (csv_files namelist) as [|first rest] eqn:Ecsv; [discriminate|].
    assert (Hf : In f (csv_files namelist)).
    { destruct (filter is_data_file (first :: rest)) as [|d ds] eqn:Ed.
      - injection H as <-. rewrite Ecsv. left. reflexivity.
      - injection H as <-.
        assert (Hin : In d (filter is_data_file (first :: rest)))
          by (rewrite Ed; left; reflexivity).
        apply filter_In in Hin as [Hin _]. rewrite Ecsv. exact Hin. }
    apply filter_In in Hf. tauto.
  - unfold select_data_file in H.
    destruct (csv_files namelist) as [|first rest] eqn:Ecsv; [discriminate|].
    destruct (filter is_data_file (first :: rest)) as [|d ds] eqn:Ed.
    + injection H as <-. assert (Hin : In first (csv_files namelist))
        by (rewrite Ecsv; left; reflexivity).
      apply filter_In in Hin. tauto.
    + injection H as <-.
      assert (Hin : In d (filter is_data_file (first :: rest)))
        by (rewrite Ed; left; reflexivity).
      apply filter_In in Hin as [Hin _]. rewrite <- Ecsv in Hin.
      apply filter_In in Hin. tauto.
  - unfold select_data_file in H.
    destruct (csv_files namelist) as [|first rest] eqn:Ecsv; [discriminate|].
    destruct (filter is_data_file (first :: rest)) as [|d ds] eqn:Ed.
    + injection H as <-. right. split; [|reflexivity].
      apply filter_nil_forallb. exact Ed.
    + injection H as <-. left.
      destruct (filter_head_split _ _ _ _ Ed) as (pre & post & Hsplit & Hpre & Hd).
      split; [exact Hd|]. exists pre, post. auto.
Qed.

(** ** Normalisation *)

Lemma insert_by_date_perm (r : Row) (l : list Row) :
  Permutation (insert_by_date r l) (r :: l).
Proof.
  induction l as [|x t IH]; simpl; [reflexivity|].
  destruct (Date r <=? Date x)%Z; [reflexivity|].
  rewrite IH. apply perm_swap.
Qed.

Lemma sort_values_perm (l : list Row) : Permutation (sort_values l) l.
Proof.
  induction l as [|r t IH]; simpl; [reflexivity|].
  rewrite insert_by_date_perm. constructor. exact IH.
Qed.

Lemma insert_by_date_sorted (r : Row) (l : list Row) :
  StronglySorted by_date l -> StronglySorted by_date (insert_by_date r l).
Proof.
  induction 1 as [|x t Ht IH Hx]; simpl.
  - constructor; constructor.
  - destruct (Date r <=? Date x)%Z eqn:E.
    + apply Z.leb_le in E. constructor.
      * constructor; assumption.
      * constructor; [exact E|].
        rewrite Forall_forall in *. intros y Hy. unfold by_date in *.
        specialize (Hx y Hy). lia.
    + apply Z.leb_gt in E. constructor; [exact IH|].
      rewrite Forall_forall in *. intros y Hy.
      apply (Permutation_in _ (insert_by_date_perm r t)) in Hy.
      destruct Hy as [<-|Hy]; [unfold by_date; lia | auto].
Qed.

Lemma sort_values_sorted (l : list Row) : StronglySorted by_date (sort_values l).
Proof.
  induction l as [|r t IH]; simpl; [constructor|].
  apply insert_by_date_sorted. exact IH.
Qed.

Lemma StronglySorted_map_Date (l : list Row) :
  StronglySorted by_date l -> StronglySorted Z.le (map Date l).
Proof.
  induction 1 as [|x t Ht IH Hx]; simpl; constructor; [exact IH|].
  rewrite Forall_forall in *. intros d Hd.
  apply in_map_iff in Hd as (y & <- & Hy). exact (Hx y Hy).
Qed.

(** What survives [dropna] is what the specification calls the
    observations of the records. *)
Lemma dropna_observations (rows : list (list Cell)) (cleaned : list Cleaned) :
  mapM clean_row rows = Some cleaned ->
  dropna cleaned = flat_map observation rows.
Proof.
  intros H. apply mapM_Some_Forall2 in H.
  induction H as [|r c rows cleaned Hrc _ IH]; [reflexivity|].
  unfold dropna in *. simpl. rewrite IH. f_equal.
  unfold clean_row, bind in Hrc. unfold observation.
  destruct (clean_value (nth 1 r None)) as [v|]; [|discriminate].
  injection Hrc as <-. simpl.
  destruct (clean_date (nth 0 r None)); reflexivity.
Qed.

Lemma clean_table_wide (t : RawTable) (region_name : string) (df : DataFrame) :
  (3 <= width t)%nat ->
  clean_table t region_name = Some df ->
  exists cleaned,
    mapM clean_row (cells t) = Some cleaned /\
    df = CleanFrame (if contains "Hotels" region_name
                     then "Hotel_Count" else "Occupancy_Rate")
                    (sort_values (dropna cleaned)) region_name.
Proof.
  intros Hw H. unfold clean_table in H.
  apply Nat.leb_le in Hw. rewrite Hw in H. unfold bind in H.
  destruct (mapM clean_row (cells t)) as [cleaned|]; [|discriminate].
  injection H as <-. eauto.
Qed.

(** A record whose value does not parse makes line 62 raise: the
    whole table is lost, not the record alone. *)
Lemma clean_table_bad_value (t : RawTable) (region_name : string) (r : list Cell) :
  (3 <= width t)%nat ->
  In r (cells t) ->
  clean_value (nth 1 r None) = None ->
  clean_table t region_name = None.
Proof.
  intros Hw Hr Hv. unfold clean_table.
  apply Nat.leb_le in Hw. rewrite Hw.
  assert (E : mapM clean_row (cells t) = None).
  { apply mapM_None_Exists. apply Exists_exists. exists r. split; [exact Hr|].
    unfold clean_row. rewrite Hv. reflexivity. }
  rewrite E. reflexivity.
Qed.

(** A record whose date does not parse is left out, as is one whose
    value is missing or NaN. *)
Lemma observation_bad_date (r : list Cell) :
  clean_date (nth 0 r None) = None -> observation r = [].
Proof. intros H. unfold observation. rewrite H. reflexivity. Qed.

(** C1.  On the three records [2020-01;10,0;A], [2020-02;20,0;A] and
    [2020-03;xx;A] the conversion of the value column raises, and
    [load_insee_data] reports an error and returns no table: the two
    valid records are lost with the malformed one. *)
Theorem C1_malformed_value_loses_table :
  clean_table scenario_rows "Marne" = None
  /\ load_insee_data (Some [mkZipEntry "valeurs_mensuelles.csv" (Some scenario_rows)])
       "Marne" = LoadError
  /\ returned LoadError = None.
Proof. repeat split. Qed.

(** C2, as stated, fails: two valid records of January 2020 are both
    kept, so the dates of the table are not strictly increasing. *)
Lemma C2_same_month_both_kept :
  exists r1 r2,
    clean_table same_month_rows "Marne"
      = Some (CleanFrame "Occupancy_Rate" [r1; r2] "Marne")
    /\ Date r1 = Date r2
    /\ ~ StronglySorted Z.lt (map Date [r1; r2]).
Proof.
  eexists; eexists. split; [reflexivity|]. split; [reflexivity|].
  simpl. intros H. inversion H as [|? ? _ Hall]; subst.
  inversion Hall as [|? ? Hlt _]; subst. revert Hlt. apply Z.lt_irrefl.
Qed.

(** C2, amended.  The table returned for at least three columns is in
    ascending order of date, equal dates allowed, and holds the
    observation of every record that has one: nothing is merged or
    dropped on account of a repeated month. *)
Theorem C2_sorted_all_kept (t : RawTable) (region_name value_col region : string)
    (rows : list Row) :
  (3 <= width t)%nat ->
  clean_table t region_name = Some (CleanFrame value_col rows region) ->
  StronglySorted Z.le (map Date rows)
  /\ Permutation rows (flat_map observation (cells t)).
Proof.
  intros Hw H. destruct (clean_table_wide _ _ _ Hw H) as (cleaned & Hc & E).
  injection E as -> -> ->. split.
  - apply StronglySorted_map_Date, sort_values_sorted.
  - rewrite sort_values_perm. rewrite (dropna_observations _ _ Hc). reflexivity.
Qed.

Lemma C2_sorted_all_kept_witness :
  exists rows,
    clean_table same_month_rows "Marne" = Some (CleanFrame "Occupancy_Rate" rows "Marne")
    /\ StronglySorted Z.le (map Date rows)
    /\ Permutation rows (flat_map observation (cells same_month_rows)).
Proof.
  eexists. split; [reflexivity|].
  apply (C2_sorted_all_kept same_month_rows "Marne" "Occupancy_Rate" "Marne").
  - simpl. lia.
  - reflexivity.
Defined.

(** C5.  A valid record does not always give an observation.  In a
    table of at least three columns, a record whose date has the form
    YYYY-MM and whose value converts stands for one observation, which
    carries the float read from the value text with the quotes removed
    and the comma turned into a point.  But as soon as the table also
    holds a record whose value does not convert, line 62 raises on the
    whole column: [load_insee_data] reports an error and returns no
    table, so the observation of the valid record is lost. *)
Theorem C5_valid_record_lost (zip : list ZipEntry) (region_name data_file : string)
    (e : ZipEntry) (t : RawTable) (r bad : list Cell) (d : Timestamp) (v : pyfloat) :
  select_data_file (map name zip) = Some data_file ->
  zip_open zip data_file = Some e ->
  read_csv e = Some t ->
  (3 <= width t)%nat ->
  In r (cells t) ->
  to_datetime (replace dquote "" (astype_str (nth 0 r None))) = Some d ->
  PyFloat.float_of_string
    (replace "," "." (replace dquote "" (astype_str (nth 1 r None)))) = Some v ->
  PyFloat.isnan v = false ->
  In bad (cells t) ->
  clean_value (nth 1 bad None) = None ->
  (exists o, observation r = [o] /\ Date o = d /\ Value o = v)
  /\ clean_table t region_name = None
  /\ load_insee_data (Some zip) region_name = LoadError
  /\ returned (load_insee_data (Some zip) region_name) = None.
Proof.
  intros Hf He Ht Hw Hr Hd Hv Hnan Hbad Hnone.
  assert (Hc : clean_table t region_name = None)
    by exact (clean_table_bad_value t region_name bad Hw Hbad Hnone).
  assert (Hl : load_insee_data (Some zip) region_name = LoadError).
  { unfold load_insee_data, bind. rewrite Hf, He, Ht, Hc. reflexivity. }
  split; [|split; [exact Hc|split; [exact Hl|rewrite Hl; reflexivity]]].
  exists (mkRow d v (clean_status (nth 2 r None)) (skipn 3 r)).
  unfold observation, clean_date, clean_value. rewrite Hd, Hv, Hnan.
  repeat split.
Qed.

Lemma C5_valid_record_lost_witness :
  (exists o, observation (cell_row "2020-01" "3,5" "A") = [o]
             /\ Date o = month_index 2020 1 /\ Value o = Finite (7 # 2))
  /\ clean_table valid_then_malformed_rows "Marne" = None
  /\ load_insee_data
       (Some [mkZipEntry "valeurs_mensuelles.csv" (Some valid_then_malformed_rows)])
       "Marne" = LoadError
  /\ returned
       (load_insee_data
          (Some [mkZipEntry "valeurs_mensuelles.csv" (Some valid_then_malformed_rows)])
          "Marne") = None.
Proof.
  apply (C5_valid_record_lost
           [mkZipEntry "valeurs_mensuelles.csv" (Some valid_then_malformed_rows)]
           "Marne" "valeurs_mensuelles.csv"
           (mkZipEntry "valeurs_mensuelles.csv" (Some valid_then_malformed_rows))
           valid_then_malformed_rows
           (cell_row "2020-01" "3,5" "A") (cell_row "2020-02" "xx" "A")).
  - reflexivity.
  - reflexivity.
  - reflexivity.
  - simpl. lia.
  - left. reflexivity.
  - vm_compute. reflexivity.
  - vm_compute. reflexivity.
  - reflexivity.
  - right. left. reflexivity.
  - vm_compute. reflexivity.
Defined.

(** C10.  A table of fewer than three columns is returned as it was
    read, with the region attached and nothing else done to it: no cell
    is rewritten or parsed, no row is dropped or moved, and nothing is
    raised, whatever the cells hold. *)
Theorem C10_narrow_table_returned_raw (zip : list ZipEntry) (region_name data_file : string)
    (e : ZipEntry) (t : RawTable) :
  select_data_file (map name zip) = Some data_file ->
  zip_open zip data_file = Some e ->
  read_csv e = Some t ->
  (width t < 3)%nat ->
  clean_table t region_name = Some (RawFrame t region_name)
  /\ load_insee_data (Some zip) region_name = Loaded (RawFrame t region_name).
Proof.
  intros Hsel Hopen Hread Hw.
  assert (E : clean_table t region_name = Some (RawFrame t region_name)).
  { unfold clean_table. apply Nat.leb_gt in Hw. rewrite Hw. reflexivity. }
  split; [exact E|].
  unfold load_insee_data. rewrite Hsel. unfold bind. rewrite Hopen, Hread, E.
  reflexivity.
Qed.

Lemma C10_narrow_table_returned_raw_witness :
  clean_table narrow_rows "Marne" = Some (RawFrame narrow_rows "Marne")
  /\ load_insee_data (Some [mkZipEntry "donnees.csv" (Some narrow_rows)]) "Marne"
     = Loaded (RawFrame narrow_rows "Marne").
Proof.
  apply (C10_narrow_table_returned_raw
           [mkZipEntry "donnees.csv" (Some narrow_rows)] "Marne" "donnees.csv"
           (mkZipEntry "donnees.csv" (Some narrow_rows)) narrow_rows).
  - reflexivity.
  - reflexivity.
  - reflexivity.
  - simpl. lia.
Defined.

(** ** Alignment *)

Lemma complete_map_Some (qs : list Q) : complete (map Some qs).
Proof.
  intros H. apply in_map_iff in H as (q & Hq & _). discriminate.
Qed.

Lemma complete_inv (g : list (option Q)) :
  complete g -> exists qs, g = map Some qs.
Proof.
  induction g as [|o t IH]; intros H.
  - exists []. reflexivity.
  - destruct o as [q|]; [|exfalso; apply H; left; reflexivity].
    destruct IH as (qs & ->); [intros Hin; apply H; right; exact Hin|].
    exists (q :: qs). reflexivity.
Qed.

Lemma interpolate_after_complete (g : list (option Q)) :
  forall a k, complete (interpolate_after a k g).
Proof.
  induction g as [|o t IH]; intros a k; simpl; [intros []|].
  destruct o as [v|].
  - intros [H|H]; [discriminate | exact (IH _ _ H)].
  - intros [H|H]; [|exact (IH _ _ H)].
    destruct (next_valid t) as [[j b]|]; discriminate.
Qed.

Lemma interpolate_head_complete (v : Q) (t : list (option Q)) :
  complete (interpolate (Some v :: t)).
Proof.
  simpl. intros [H|H]; [discriminate | exact (interpolate_after_complete _ _ _ H)].
Qed.

Lemma interpolate_after_map_Some (qs : list Q) :
  forall a k, interpolate_after a k (map Some qs) = map Some qs.
Proof.
  induction qs as [|q t IH]; intros a k; simpl; [reflexivity|].
  rewrite IH. reflexivity.
Qed.

Lemma interpolate_map_Some (qs : list Q) :
  interpolate (map Some qs) = map Some qs.
Proof.
  destruct qs as [|q t]; simpl; [reflexivity|].
  rewrite interpolate_after_map_Some. reflexivity.
Qed.

Lemma fillna_map_Some (qs : list Q) (m : option Q) :
  fillna (map Some qs) m = map Some qs.
Proof.
  destruct m as [v|]; simpl; [|reflexivity].
  rewrite map_map. reflexivity.
Qed.

Lemma aligned_map_Some (qs : list Q) : aligned (map Some qs) = map Some qs.
Proof.
  unfold aligned. rewrite interpolate_map_Some. apply fillna_map_Some.
Qed.

Lemma interpolate_after_length (g : list (option Q)) :
  forall a k, List.length (interpolate_after a k g) = List.length g.
Proof.
  induction g as [|o t IH]; intros a k; simpl; [reflexivity|].
  destruct o; simpl; rewrite IH; reflexivity.
Qed.

Lemma interpolate_length (g : list (option Q)) :
  List.length (interpolate g) = List.length g.
Proof.
  induction g as [|o t IH]; simpl; [reflexivity|].
  destruct o; simpl; [rewrite interpolate_after_length | rewrite IH]; reflexivity.
Qed.

Lemma fillna_length (g : list (option Q)) (m : option Q) :
  List.length (fillna g m) = List.length g.
Proof.
  destruct m; simpl; [apply length_map | reflexivity].
Qed.

Lemma aligned_length (g : list (option Q)) :
  List.length (aligned g) = List.length g.
Proof.
  unfold aligned. rewrite fillna_length. apply interpolate_length.
Qed.

(** *** The date index *)

Lemma fold_left_min_spec (l : list Z) (a : Z) :
  (fold_left Z.min l a <= a)%Z
  /\ (forall t, In t l -> (fold_left Z.min l a <= t)%Z)
  /\ (fold_left Z.min l a = a \/ In (fold_left Z.min l a) l).
Proof.
  revert a. induction l as [|x t IH]; intros a; simpl.
  - repeat split; [lia | intros ? [] | left; reflexivity].
  - destruct (IH (Z.min a x)) as (H1 & H2 & H3). repeat split.
    + lia.
    + intros y [<-|Hy]; [lia | exact (H2 y Hy)].
    + destruct H3 as [H3|H3]; [|right; right; exact H3].
      rewrite H3. destruct (Z.min_spec a x) as [[_ ->]|[_ ->]]; [left | right; left];
        reflexivity.
Qed.

Lemma fold_left_max_spec (l : list Z) (a : Z) :
  (a <= fold_left Z.max l a)%Z
  /\ (forall t, In t l -> (t <= fold_left Z.max l a)%Z)
  /\ (fold_left Z.max l a = a \/ In (fold_left Z.max l a) l).
Proof.
  revert a. induction l as [|x t IH]; intros a; simpl.
  - repeat split; [lia | intros ? [] | left; reflexivity].
  - destruct (IH (Z.max a x)) as (H1 & H2 & H3). repeat split.
    + lia.
    + intros y [<-|Hy]; [lia | exact (H2 y Hy)].
    + destruct H3 as [H3|H3]; [|right; right; exact H3].
      rewrite H3. destruct (Z.max_spec a x) as [[_ ->]|[_ ->]]; [right; left | left];
        reflexivity.
Qed.

Lemma index_min_spec (s : Series) (lo : Timestamp) :
  index_min s = Some lo ->
  In lo (map fst s) /\ forall t, In t (map fst s) -> (lo <= t)%Z.
Proof.
  unfold index_min. destruct (map fst s) as [|a l]; [discriminate|].
  intros H. injection H as <-.
  destruct (fold_left_min_spec l a) as (H1 & H2 & H3). split.
  - destruct H3 as [->|H3]; [left; reflexivity | right; exact H3].
  - intros t [<-|Ht]; [exact H1 | exact (H2 t Ht)].
Qed.

Lemma index_max_spec (s : Series) (hi : Timestamp) :
  index_max s = Some hi ->
  In hi (map fst s) /\ forall t, In t (map fst s) -> (t <= hi)%Z.
Proof.
  unfold index_max. destruct (map fst s) as [|a l]; [discriminate|].
  intros H. injection H as <-.
  destruct (fold_left_max_spec l a) as (H1 & H2 & H3). split.
  - destruct H3 as [->|H3]; [left; reflexivity | right; exact H3].
  - intros t [<-|Ht]; [exact H1 | exact (H2 t Ht)].
Qed.

Lemma index_min_None (s : Series) : index_min s = None -> s = [].
Proof. destruct s; [reflexivity | discriminate]. Qed.

Lemma index_max_None (s : Series) : index_max s = None -> s = [].
Proof. destruct s; [reflexivity | discriminate]. Qed.

Lemma in_date_range (lo hi t : Timestamp) :
  In t (date_range lo hi) <-> (lo <= t <= hi)%Z.
Proof.
  unfold date_range. rewrite in_map_iff. split.
  - intros (k & <- & Hk). apply in_seq in Hk. lia.
  - intros H. exists (Z.to_nat (t - lo)). split; [lia|]. apply in_seq. lia.
Qed.

Lemma date_range_length (lo hi : Timestamp) :
  List.length (date_range lo hi) = Z.to_nat (hi - lo + 1).
Proof. unfold date_range. rewrite length_map, length_seq. reflexivity. Qed.

Lemma date_range_head (lo hi : Timestamp) :
  (lo <= hi)%Z -> exists rest, date_range lo hi = lo :: rest.
Proof.
  intros H. unfold date_range.
  replace (Z.to_nat (hi - lo + 1)) with (S (Z.to_nat (hi - lo))) by lia.
  simpl. rewrite Z.add_0_r. eauto.
Qed.

Lemma has_duplicates_NoDup (l : list Timestamp) :
  has_duplicates l = false -> NoDup l.
Proof.
  induction l as [|t ts IH]; simpl; intros H; constructor.
  - apply orb_false_elim in H as [H _]. intros Hin.
    assert (E : existsb (Z.eqb t) ts = true).
    { apply existsb_exists. exists t. split; [exact Hin | apply Z.eqb_refl]. }
    congruence.
  - apply orb_false_elim in H as [_ H]. exact (IH H).
Qed.

Lemma NoDup_has_duplicates (l : list Timestamp) :
  NoDup l -> has_duplicates l = false.
Proof.
  induction 1 as [|t ts Hnot _ IH]; simpl; [reflexivity|].
  rewrite IH, orb_false_r.
  destruct (existsb (Z.eqb t) ts) eqn:E; [|reflexivity].
  apply existsb_exists in E as (x & Hx & Ex). apply Z.eqb_eq in Ex. subst x.
  contradiction.
Qed.

Lemma lookup_In (t : Timestamp) (s : Series) (v : pyfloat) :
  lookup t s = Some v -> In (t, v) s.
Proof.
  induction s as [|[t' v'] rest IH]; simpl; [discriminate|].
  destruct (t =? t')%Z eqn:E.
  - apply Z.eqb_eq in E. intros H. injection H as <-. subst. left. reflexivity.
  - intros H. right. exact (IH H).
Qed.

Lemma lookup_key (t : Timestamp) (s : Series) :
  In t (map fst s) -> exists v, lookup t s = Some v.
Proof.
  induction s as [|[t' v'] rest IH]; simpl; [intros []|].
  destruct (t =? t')%Z eqn:E; [eauto|].
  intros [H|H]; [apply Z.eqb_neq in E; congruence | exact (IH H)].
Qed.

Lemma lookup_own_keys (s : Series) :
  NoDup (map fst s) ->
  map (fun t => lookup t s) (map fst s) = map (fun p => Some (snd p)) s.
Proof.
  induction s as [|[t v] rest IH]; simpl; intros H; [reflexivity|].
  inversion H as [|? ? Hnot Hrest]; subst.
  rewrite Z.eqb_refl. f_equal. rewrite <- (IH Hrest).
  apply map_ext_in. intros t' Ht'.
  destruct (t' =? t)%Z eqn:E; [|reflexivity].
  apply Z.eqb_eq in E. subst. contradiction.
Qed.

Lemma asfreq_MS_length (s : Series) (g : list (option pyfloat)) :
  asfreq_MS s = Some g -> (List.length s <= List.length g)%nat.
Proof.
  unfold asfreq_MS.
  destruct (index_min s) as [lo|] eqn:Elo;
    [|apply index_min_None in Elo; subst; intros; simpl; lia].
  destruct (index_max s) as [hi|] eqn:Ehi;
    [|apply index_max_None in Ehi; subst; intros; simpl; lia].
  destruct (has_duplicates (map fst s)) eqn:Ed; [discriminate|].
  intros H. injection H as <-.
  rewrite length_map, <- (length_map fst s).
  apply NoDup_incl_length; [apply has_duplicates_NoDup; exact Ed|].
  intros t Ht. apply in_date_range.
  apply index_min_spec in Elo as [_ Hlo]. apply index_max_spec in Ehi as [_ Hhi].
  split; auto.
Qed.

Lemma dropna_series_no_nan (s : Series) (t : Timestamp) (v : pyfloat) :
  In (t, v) (dropna_series s) -> v <> NaN.
Proof.
  unfold dropna_series. intros H. apply filter_In in H as [_ H].
  intros ->. discriminate.
Qed.

Lemma finite_grid_length (g : list (option pyfloat)) (gq : list (option Q)) :
  finite_grid g = Some gq -> List.length gq = List.length g.
Proof.
  intros H. apply mapM_Some_Forall2 in H. symmetry. exact (Forall2_length H).
Qed.

(** The grid of an aligned series starts on an observation, so line 360
    leaves no point missing and line 363 changes nothing. *)
Lemma aligned_grid_complete (s : Series) (g : list (option pyfloat))
    (gq : list (option Q)) :
  asfreq_MS (dropna_series s) = Some g ->
  finite_grid g = Some gq ->
  complete (interpolate gq) /\ aligned gq = interpolate gq.
Proof.
  intros Hg Hq.
  assert (Hc : complete (interpolate gq)).
  { unfold asfreq_MS in Hg.
    destruct (index_min (dropna_series s)) as [lo|] eqn:Elo;
      [|injection Hg as <-; injection Hq as <-; intros []].
    destruct (index_max (dropna_series s)) as [hi|] eqn:Ehi;
      [|injection Hg as <-; injection Hq as <-; intros []].
    destruct (has_duplicates _); [discriminate|]. injection Hg as <-.
    destruct (index_min_spec _ _ Elo) as [Hin Hlo].
    destruct (index_max_spec _ _ Ehi) as [Hin' _].
    destruct (date_range_head lo hi (Hlo _ Hin')) as (rest & Hdr).
    rewrite Hdr in Hq.
    destruct (lookup_key _ _ Hin) as (v & Hv).
    simpl in Hq. rewrite Hv in Hq.
    apply lookup_In, dropna_series_no_nan in Hv.
    unfold finite_grid in Hq. simpl in Hq. unfold bind in Hq.
    destruct v as [q| |]; [|discriminate|contradiction].
    match type of Hq with
    | match ?m with _ => _ end = _ => destruct m as [gq'|]; [|discriminate]
    end.
    injection Hq as <-. apply interpolate_head_complete. }
  split; [exact Hc|].
  unfold aligned. destruct (complete_inv _ Hc) as (qs & ->). apply fillna_map_Some.
Qed.

Lemma seasonal_decompose_complete (qs : list Q) :
  (24 <= List.length qs)%nat ->
  exists d, seasonal_decompose (map Some qs) 12 = Some d /\ observed d = qs.
Proof.
  intros H. unfold seasonal_decompose. rewrite mapM_id_map_Some. unfold bind.
  replace (List.length qs <? 2 * 12)%nat with false
    by (symmetry; apply Nat.ltb_ge; simpl; lia).
  eexists. split; reflexivity.
Qed.

Lemma dropna_series_finite (s : Series) (qs : list Q) :
  map snd s = map Finite qs -> dropna_series s = s.
Proof.
  revert qs. induction s as [|[t v] rest IH]; intros qs H; [reflexivity|].
  destruct qs as [|q qs']; [discriminate|]. simpl in H.
  injection H as -> H. simpl. rewrite (IH _ H). reflexivity.
Qed.

Lemma finite_grid_finite (s : Series) (qs : list Q) :
  map snd s = map Finite qs ->
  finite_grid (map (fun p => Some (snd p)) s) = Some (map Some qs).
Proof.
  revert qs. induction s as [|[t v] rest IH]; intros qs H.
  - destruct qs; [reflexivity | discriminate].
  - destruct qs as [|q qs']; [discriminate|]. simpl in H.
    injection H as -> H. unfold finite_grid in *. simpl.
    rewrite (IH _ H). reflexivity.
Qed.

Lemma consecutive_NoDup (t0 : Timestamp) (n : nat) :
  NoDup (map (fun k => (t0 + Z.of_nat k)%Z) (seq 0 n)).
Proof.
  generalize 0%nat. induction n as [|n IH]; intros a; simpl; constructor.
  - intros H. apply in_map_iff in H as (k & Hk & Hin). apply in_seq in Hin. lia.
  - apply IH.
Qed.

Lemma asfreq_MS_contiguous (s : Series) (t0 : Timestamp) :
  map fst s = map (fun k => (t0 + Z.of_nat k)%Z) (seq 0 (List.length s)) ->
  asfreq_MS s = Some (map (fun p => Some (snd p)) s).
Proof.
  intros Hk. unfold asfreq_MS.
  destruct (index_min s) as [lo|] eqn:Elo;
    [|apply index_min_None in Elo; subst; reflexivity].
  destruct (index_max s) as [hi|] eqn:Ehi;
    [|apply index_max_None in Ehi; subst; reflexivity].
  destruct (index_min_spec _ _ Elo) as [Hlo_in Hlo].
  destruct (index_max_spec _ _ Ehi) as [Hhi_in Hhi].
  assert (Hn : (0 < List.length s)%nat).
  { destruct s; [destruct Hlo_in | simpl; lia]. }
  assert (Hmem : forall t, In t (map fst s) <->
                           (t0 <= t < t0 + Z.of_nat (List.length s))%Z).
  { intros t. rewrite Hk, in_map_iff. split.
    - intros (k & <- & Hin). apply in_seq in Hin. lia.
    - intros H. exists (Z.to_nat (t - t0)). split; [lia|]. apply in_seq. lia. }
  assert (Elo' : lo = t0).
  { apply Hmem in Hlo_in. assert (Ht0 : In t0 (map fst s)) by (apply Hmem; lia).
    specialize (Hlo _ Ht0). lia. }
  assert (Ehi' : hi = (t0 + Z.of_nat (List.length s) - 1)%Z).
  { apply Hmem in Hhi_in.
    assert (Ht : In (t0 + Z.of_nat (List.length s) - 1)%Z (map fst s))
      by (apply Hmem; lia).
    specialize (Hhi _ Ht). lia. }
  subst lo hi.
  assert (Hnodup : NoDup (map fst s)) by (rewrite Hk; apply consecutive_NoDup).
  rewrite (NoDup_has_duplicates _ Hnodup).
  assert (Hr : date_range t0 (t0 + Z.of_nat (List.length s) - 1)%Z = map fst s).
  { unfold date_range. rewrite Hk. do 2 f_equal. lia. }
  rewrite Hr, (lookup_own_keys _ Hnodup). reflexivity.
Qed.

(** C8.  A series whose dates are consecutive months and whose values
    are numbers is aligned to the very same values, one per
    observation; and interpolating and filling a grid with no missing
    point returns it unchanged. *)
Theorem C8_contiguous_roundtrip (s : Series) (t0 : Timestamp) (qs : list Q) :
  map fst s = map (fun k => (t0 + Z.of_nat k)%Z) (seq 0 (List.length s)) ->
  map snd s = map Finite qs ->
  asfreq_MS (dropna_series s) = Some (map (fun p => Some (snd p)) s)
  /\ aligned_series s = Some (map Some qs)
  /\ List.length (map Some qs) = List.length s
  /\ interpolate (map Some qs) = map Some qs
  /\ aligned (map Some qs) = map Some qs.
Proof.
  intros Hk Hv.
  assert (E : asfreq_MS (dropna_series s) = Some (map (fun p => Some (snd p)) s)).
  { rewrite (dropna_series_finite _ _ Hv). exact (asfreq_MS_contiguous _ _ Hk). }
  split; [exact E|]. split; [|split; [|split]].
  - unfold aligned_series, bind. rewrite E, (finite_grid_finite _ _ Hv).
    rewrite aligned_map_Some. reflexivity.
  - rewrite length_map, <- (length_map Finite), <- Hv. apply length_map.
  - apply interpolate_map_Some.
  - apply aligned_map_Some.
Qed.

Lemma C8_contiguous_roundtrip_witness :
  let s := [(month_index 2020 1, Finite 10); (month_index 2020 2, Finite 20);
            (month_index 2020 3, Finite (7 # 2))] in
  asfreq_MS (dropna_series s) = Some (map (fun p => Some (snd p)) s)
  /\ aligned_series s = Some (map Some [10; 20; 7 # 2])
  /\ List.length (map Some [10; 20; 7 # 2]) = List.length s
  /\ interpolate (map Some [10; 20; 7 # 2]) = map Some [10; 20; 7 # 2]
  /\ aligned (map Some [10; 20; 7 # 2]) = map Some [10; 20; 7 # 2].
Proof.
  intros s.
  apply (C8_contiguous_roundtrip s (month_index 2020 1) [10; 20; 7 # 2]).
  - reflexivity.
  - reflexivity.
Defined.



(** ** The decomposition guard *)

Lemma aligned_of_length (df : DataFrame) (s : Series) (ts : list (option Q)) :
  occupancy_series df = Some s ->
  dropna_series s = s ->
  aligned_of df = Some ts ->
  (len df <= List.length ts)%nat.
Proof.
  intros Hs Hd H. unfold aligned_of, aligned_series, bind in H.
  rewrite Hs, Hd in H.
  destruct (asfreq_MS s) as [g|] eqn:Eg; [|discriminate].
  destruct (finite_grid g) as [gq|] eqn:Eq; [|discriminate].
  injection H as <-. rewrite aligned_length, (finite_grid_length _ _ Eq).
  apply asfreq_MS_length in Eg.
  assert (E : len df = List.length s).
  { unfold occupancy_series in Hs. destruct df as [|vc rows rg]; [discriminate|].
    destruct (String.eqb vc _); [|discriminate]. injection Hs as <-.
    simpl. rewrite length_map. reflexivity. }
  lia.
Qed.

(** C6, as stated, fails: two observations three years apart give an
    aligned series of 37 points, more than 24, yet nothing is decomposed,
    because the table itself has only two rows. *)
Lemma C6_long_grid_not_decomposed :
  exists ts,
    aligned_of sparse_frame = Some ts
    /\ (24 < List.length ts)%nat
    /\ seasonal_decomposition true (Some sparse_frame) = Skipped.
Proof.
  eexists. split; [reflexivity|]. split; [|reflexivity]. simpl. lia.
Qed.

(** C6, amended.  A region is decomposed exactly when it is selected,
    its table has more than 24 rows, and its aligned series exists and
    has more than 24 points; what is decomposed is that aligned series.
    A table of 24 rows or fewer is skipped whatever the length of its
    aligned series, and so is an aligned series of 24 points or fewer:
    skipped, not reported as unavailable.  When no value is missing in
    the table the aligned series is at least as long as the table.  The
    twelve months of 2020 are skipped. *)
Theorem C6_decomposition_guard (selected : bool) (df : DataFrame) :
  ((exists ts d, seasonal_decomposition selected (Some df) = Decomposed ts d) <->
     selected = true /\ (24 < len df)%nat /\
     exists ts, aligned_of df = Some ts /\ (24 < List.length ts)%nat)
  /\ (forall ts d, seasonal_decomposition selected (Some df) = Decomposed ts d ->
        aligned_of df = Some ts /\ seasonal_decompose ts 12 = Some d)
  /\ ((len df <= 24)%nat -> seasonal_decomposition selected (Some df) = Skipped)
  /\ (forall ts, aligned_of df = Some ts -> (List.length ts <= 24)%nat ->
        seasonal_decomposition selected (Some df) = Skipped)
  /\ (forall s ts, occupancy_series df = Some s -> dropna_series s = s ->
        aligned_of df = Some ts -> (len df <= List.length ts)%nat)
  /\ seasonal_decomposition selected (Some year_2020_frame) = Skipped
  /\ seasonal_decomposition selected None = Skipped.
Proof.
  assert (Hdec : forall ts d,
            seasonal_decomposition selected (Some df) = Decomposed ts d ->
            selected = true /\ (24 < len df)%nat /\ (24 < List.length ts)%nat /\
            aligned_of df = Some ts /\ seasonal_decompose ts 12 = Some d).
  { intros ts d H. unfold seasonal_decomposition in H.
    destruct (selected && (24 <? len df)%nat) eqn:Eg; [|discriminate].
    apply andb_prop in Eg as [-> Elen]. apply Nat.ltb_lt in Elen.
    unfold aligned_of, aligned_series. unfold bind in *.
    destruct (occupancy_series df) as [s|]; [|discriminate].
    destruct (asfreq_MS (dropna_series s)) as [g|]; [|discriminate].
    destruct (finite_grid g) as [gq|];
      [|destruct (24 <? List.length g)%nat; discriminate].
    cbv zeta in H.
    destruct (24 <? List.length (aligned gq))%nat eqn:El; [|discriminate].
    apply Nat.ltb_lt in El.
    destruct (seasonal_decompose (aligned gq) 12) as [d'|] eqn:Ed; [|discriminate].
    injection H as <- <-. auto. }
  split; [split|].
  - intros (ts & d & H). destruct (Hdec _ _ H) as (Hs & Hl & Hts & Ha & _). eauto.
  - intros (-> & Hl & ts & Ha & Hts).
    unfold seasonal_decomposition. apply Nat.ltb_lt in Hl. rewrite Hl. simpl.
    unfold aligned_of, aligned_series, bind in Ha. unfold bind.
    destruct (occupancy_series df) as [s|]; [|discriminate].
    destruct (asfreq_MS (dropna_series s)) as [g|] eqn:Eg; [|discriminate].
    destruct (finite_grid g) as [gq|] eqn:Eq; [|discriminate].
    injection Ha as <-. cbv zeta.
    pose proof Hts as Hts'. apply Nat.ltb_lt in Hts'. rewrite Hts'.
    destruct (aligned_grid_complete _ _ _ Eg Eq) as [Hc Ea].
    destruct (complete_inv _ Hc) as (qs & Hqs).
    rewrite Ea, Hqs in *.
    destruct (seasonal_decompose_complete qs) as (d & Hd & _).
    { rewrite length_map in Hts. lia. }
    rewrite Hd. eauto.
  - split; [|split; [|split; [|split; [|split]]]].
    + intros ts d H. destruct (Hdec _ _ H) as (_ & _ & _ & Ha & Hd). auto.
    + intros Hl. unfold seasonal_decomposition.
      replace (24 <? len df)%nat with false by (symmetry; apply Nat.ltb_ge; lia).
      rewrite andb_false_r. reflexivity.
    + intros ts Ha Hl. unfold seasonal_decomposition.
      destruct (selected && (24 <? len df)%nat); [|reflexivity].
      unfold aligned_of, aligned_series, bind in Ha. unfold bind.
      destruct (occupancy_series df) as [s|]; [|discriminate].
      destruct (asfreq_MS (dropna_series s)) as [g|]; [|discriminate].
      destruct (finite_grid g) as [gq|]; [|discriminate].
      injection Ha as <-. cbv zeta.
      replace (24 <? List.length (aligned gq))%nat with false
        by (symmetry; apply Nat.ltb_ge; lia).
      reflexivity.
    + intros s ts. apply aligned_of_length.
    + destruct selected; reflexivity.
    + reflexivity.
Qed.

Lemma C6_decomposition_guard_witness :
  (exists ts d, seasonal_decomposition true (Some (ramp_frame 25)) = Decomposed ts d)
  /\ seasonal_decomposition true (Some sparse_frame) = Skipped
  /\ seasonal_decomposition true (Some year_2020_frame) = Skipped.
Proof.
  split; [|split].
  - apply (proj1 (C6_decomposition_guard true (ramp_frame 25))).
    split; [reflexivity|]. split; [simpl; lia|].
    eexists. split; [vm_compute; reflexivity|]. vm_compute. lia.
  - apply (proj1 (proj2 (proj2 (C6_decomposition_guard true sparse_frame)))).
    simpl. lia.
  - apply (proj1 (proj2 (proj2 (proj2 (C6_decomposition_guard true year_2020_frame))))
             (map Some (repeat 50 12))).
    + reflexivity.
    + simpl. lia.
Defined.

(** ** Decomposition *)

Lemma seasonal_decompose_eq (x : list Q) :
  (24 <= List.length x)%nat ->
  exists d,
    seasonal_decompose (map Some x) 12 = Some d
    /\ observed d = x
    /\ trend d = trend_of x
    /\ seasonal d = tile (seasonal_indices x) (List.length x / 12 + 1) (List.length x).
Proof.
  intros H. unfold seasonal_decompose. rewrite mapM_id_map_Some. unfold bind.
  replace (List.length x <? 2 * 12)%nat with false
    by (symmetry; apply Nat.ltb_ge; simpl; lia).
  eexists. split; [reflexivity|]. repeat split.
Qed.

Lemma convolve_valid_length (filt : list Q) (x : list Q) :
  (1 <= List.length filt)%nat ->
  List.length (convolve_valid x filt) = (List.length x + 1 - List.length filt)%nat.
Proof.
  intros Hf. induction x as [|a t IH]; cbn [convolve_valid List.length].
  - lia.
  - destruct (List.length filt <=? S (List.length t))%nat eqn:E.
    + apply Nat.leb_le in E. cbn [List.length]. rewrite IH. lia.
    + apply Nat.leb_gt in E. cbn [List.length]. lia.
Qed.

Lemma convolve_valid_nth (filt : list Q) (x : list Q) (j : nat) :
  (j + List.length filt <= List.length x)%nat ->
  (1 <= List.length filt)%nat ->
  nth_error (convolve_valid x filt) j = Some (dot (rev filt) (skipn j x)).
Proof.
  intros H Hf. revert j H. induction x as [|a t IH]; intros j H; simpl in H.
  - lia.
  - cbn [convolve_valid List.length].
    replace (List.length filt <=? S (List.length t))%nat with true
      by (symmetry; apply Nat.leb_le; lia).
    destruct j as [|j]; [reflexivity|].
    cbn [nth_error skipn]. apply IH. lia.
Qed.

Lemma dot_firstn (a b : list Q) : dot a b = dot a (firstn (List.length a) b).
Proof.
  revert b. induction a as [|x a IH]; intros b; [reflexivity|].
  destruct b as [|y b]; [reflexivity|]. simpl. rewrite <- IH. reflexivity.
Qed.

Lemma firstn_as_map (l : list Q) (m : nat) :
  (m <= List.length l)%nat ->
  firstn m l = map (fun k => nth k l 0) (seq 0 m).
Proof.
  revert m. induction l as [|a t IH]; intros m H.
  - destruct m; [reflexivity | simpl in H; lia].
  - destruct m as [|m]; [reflexivity|].
    cbn [firstn seq map nth]. f_equal.
    rewrite <- seq_shift, map_map. apply IH. simpl in H. lia.
Qed.

Lemma firstn_skipn_nth (x : list Q) (m j : nat) :
  (j + m <= List.length x)%nat ->
  firstn m (skipn j x) = map (fun k => nth (j + k) x 0) (seq 0 m).
Proof.
  intros H. rewrite firstn_as_map by (rewrite length_skipn; lia).
  apply map_ext. intros k. apply nth_skipn.
Qed.

Lemma filt12_rev :
  rev (default_filt 12)
  = [1 # 24; 1 # 12; 1 # 12; 1 # 12; 1 # 12; 1 # 12; 1 # 12;
     1 # 12; 1 # 12; 1 # 12; 1 # 12; 1 # 12; 1 # 24].
Proof. reflexivity. Qed.

Lemma filt12_length : List.length (default_filt 12) = 13%nat.
Proof. reflexivity. Qed.

(** One full overlap of the filter is the centred moving average. *)
Lemma window_centered_ma12 (x : list Q) (i : nat) :
  (6 <= i)%nat -> (i + 6 < List.length x)%nat ->
  dot (rev (default_filt 12)) (skipn (i - 6) x) == centered_ma12 x i.
Proof.
  intros H6 Hn. rewrite dot_firstn, length_rev, filt12_length.
  rewrite firstn_skipn_nth by lia. rewrite filt12_rev.
  unfold centered_ma12.
  replace (i - 5)%nat with (i - 6 + 1)%nat by lia.
  replace (i + 6)%nat with (i - 6 + 12)%nat by lia.
  generalize (i - 6)%nat. intros j.
  cbn [seq map dot Qsum fold_right].
  rewrite <- ?Nat.add_assoc. cbn [Nat.add]. rewrite ?Nat.add_0_r.
  field.
Qed.

Lemma trend_of_length (x : list Q) :
  (13 <= List.length x)%nat -> List.length (trend_of x) = List.length x.
Proof.
  intros H. unfold trend_of, convolution_filter, pad_nans.
  rewrite filt12_length. cbn [Nat.add Nat.div Nat.modulo Nat.sub Nat.divmod fst snd].
  rewrite !length_app, length_map, !repeat_length, convolve_valid_length;
    rewrite filt12_length; lia.
Qed.

Lemma trend_of_nth (x : list Q) (i : nat) :
  (13 <= List.length x)%nat ->
  (i < List.length x)%nat ->
  nth_error (trend_of x) i
  = if ((i <? 6) || (List.length x - 6 <=? i))%nat then Some None
    else Some (Some (dot (rev (default_filt 12)) (skipn (i - 6) x))).
Proof.
  intros H Hi. unfold trend_of, convolution_filter, pad_nans.
  rewrite filt12_length.
  change ((13 + 1) / 2 - 1)%nat with 6%nat.
  change ((13 + 1) / 2 - 13 mod 2)%nat with 6%nat.
  assert (Hlen : List.length (convolve_valid x (default_filt 12))
                 = (List.length x - 12)%nat).
  { rewrite convolve_valid_length; rewrite filt12_length; lia. }
  destruct (i <? 6)%nat eqn:E1.
  - apply Nat.ltb_lt in E1. rewrite nth_error_app1 by (rewrite repeat_length; lia).
    simpl orb. apply nth_error_repeat. exact E1.
  - apply Nat.ltb_ge in E1. rewrite nth_error_app2 by (rewrite repeat_length; lia).
    rewrite repeat_length. simpl orb.
    destruct (List.length x - 6 <=? i)%nat eqn:E2.
    + apply Nat.leb_le in E2.
      rewrite nth_error_app2 by (rewrite length_map, Hlen; lia).
      rewrite length_map, Hlen. apply nth_error_repeat. lia.
    + apply Nat.leb_gt in E2.
      rewrite nth_error_app1 by (rewrite length_map, Hlen; lia).
      rewrite nth_error_map, convolve_valid_nth; [reflexivity| |];
        rewrite filt12_length; lia.
Qed.

(** C3, as stated, fails: on 25 points the trend is undefined at index
    19, which is not among the last five indices 20 to 24. *)
Lemma C3_sixth_from_last_undefined :
  exists d,
    seasonal_decompose (ramp 25) 12 = Some d
    /\ nth_error (trend d) 19 = Some None
    /\ (19 < 25 - 5)%nat.
Proof.
  eexists. split; [vm_compute; reflexivity|]. split; [reflexivity | lia].
Qed.

(** C3, amended.  For values [x] of more than 24 points the
    decomposition succeeds; its trend has one entry per point, is
    undefined at exactly the first 6 and the last 6 indices, and at every
    other index [i] is the centred moving average of order 12: the mean
    over 12 of the values at [i - 5] to [i + 5] and half of each of the
    values at [i - 6] and [i + 6]. *)
Theorem C3_trend_centered_moving_average (x : list Q) :
  (24 < List.length x)%nat ->
  exists d,
    seasonal_decompose (map Some x) 12 = Some d
    /\ List.length (trend d) = List.length x
    /\ (forall i, (i < List.length x)%nat ->
          (nth_error (trend d) i = Some None <->
           (i < 6 \/ List.length x - 6 <= i)%nat))
    /\ (forall i, (6 <= i)%nat -> (i + 6 < List.length x)%nat ->
          exists v, nth_error (trend d) i = Some (Some v)
                    /\ v == centered_ma12 x i).
Proof.
  intros H.
  destruct (seasonal_decompose_eq x) as (d & Hd & _ & Ht & _); [lia|].
  exists d. split; [exact Hd|]. rewrite Ht. split; [|split].
  - apply trend_of_length. lia.
  - intros i Hi. rewrite trend_of_nth by lia.
    destruct (i <? 6)%nat eqn:E1; simpl orb.
    + apply Nat.ltb_lt in E1. split; [intros _; lia | reflexivity].
    + apply Nat.ltb_ge in E1.
      destruct (List.length x - 6 <=? i)%nat eqn:E2.
      * apply Nat.leb_le in E2. split; [intros _; lia | reflexivity].
      * apply Nat.leb_gt in E2. split; [discriminate | lia].
  - intros i H6 Hn. rewrite trend_of_nth by lia.
    replace (i <? 6)%nat with false by (symmetry; apply Nat.ltb_ge; lia).
    replace (List.length x - 6 <=? i)%nat with false
      by (symmetry; apply Nat.leb_gt; lia).
    simpl orb. eexists. split; [reflexivity|].
    apply window_centered_ma12; lia.
Qed.

Lemma C3_trend_centered_moving_average_witness :
  exists d,
    seasonal_decompose (map Some (map (fun k => inject_Z (Z.of_nat k)) (seq 0 25))) 12
      = Some d
    /\ List.length (trend d) = 25%nat
    /\ (forall i, (i < 25)%nat ->
          (nth_error (trend d) i = Some None <-> (i < 6 \/ 25 - 6 <= i)%nat))
    /\ (forall i, (6 <= i)%nat -> (i + 6 < 25)%nat ->
          exists v, nth_error (trend d) i = Some (Some v)
                    /\ v == centered_ma12
                              (map (fun k => inject_Z (Z.of_nat k)) (seq 0 25)) i).
Proof.
  apply (C3_trend_centered_moving_average
           (map (fun k => inject_Z (Z.of_nat k)) (seq 0 25))).
  simpl. lia.
Defined.

Lemma detrended_of_nth (x : list Q) (i : nat) :
  (13 <= List.length x)%nat ->
  (6 <= i)%nat -> (i + 6 < List.length x)%nat ->
  exists v, nth_error (detrended_of x) i = Some (Some v).
Proof.
  intros H H6 Hn. unfold detrended_of.
  assert (Ht : nth_error (trend_of x) i
               = Some (Some (dot (rev (default_filt 12)) (skipn (i - 6) x)))).
  { rewrite trend_of_nth by lia.
    replace (i <? 6)%nat with false by (symmetry; apply Nat.ltb_ge; lia).
    replace (List.length x - 6 <=? i)%nat with false
      by (symmetry; apply Nat.leb_gt; lia).
    reflexivity. }
  rewrite nth_error_map.
  rewrite (nth_error_nth' _ (0, None))
    by (rewrite length_combine, trend_of_length; lia).
  rewrite combine_nth by (rewrite trend_of_length; lia).
  rewrite (nth_error_nth _ _ None Ht). simpl. eauto.
Qed.

Lemma In_slice_step {A : Type} (l : list A) (i p k : nat) (a : A) :
  (1 <= p)%nat ->
  nth_error l (i + k * p) = Some a -> In a (slice_step l i p).
Proof.
  intros Hp H. unfold slice_step. apply in_flat_map. exists k. split.
  - apply in_seq. assert (Hlt : (i + k * p < List.length l)%nat).
    { apply nth_error_Some. congruence. }
    nia.
  - rewrite H. left. reflexivity.
Qed.

Lemma mean_defined (g : list (option Q)) (v : Q) :
  In (Some v) g -> exists m, mean g = Some m.
Proof.
  intros H. unfold mean.
  assert (Hk : In v (known g)).
  { unfold known. apply in_flat_map. exists (Some v). split; [exact H|].
    left. reflexivity. }
  destruct (known g) as [|a t]; [destruct Hk | eauto].
Qed.

Lemma map_all_Some {A B : Type} (f : A -> option B) (l : list A) :
  (forall a, In a l -> exists b, f a = Some b) ->
  exists bs, map f l = map Some bs /\ List.length bs = List.length l.
Proof.
  induction l as [|a t IH]; intros H.
  - exists []. split; reflexivity.
  - destruct (H a (or_introl eq_refl)) as (b & Hb).
    destruct IH as (bs & Hbs & Hlen); [intros a' Ha'; apply H; right; exact Ha'|].
    exists (b :: bs). simpl. rewrite Hb, Hbs, Hlen. split; reflexivity.
Qed.

(** With two full periods every position has a defined detrended value. *)
Lemma seasonal_mean_defined (x : list Q) :
  (24 <= List.length x)%nat ->
  exists raw, seasonal_mean (detrended_of x) 12 = map Some raw
              /\ List.length raw = 12%nat.
Proof.
  intros H. unfold seasonal_mean.
  destruct (map_all_Some (fun i => mean (slice_step (detrended_of x) i 12)) (seq 0 12))
    as (raw & Hraw & Hlen).
  - intros i Hi. apply in_seq in Hi.
    destruct (Nat.lt_ge_cases i 6) as [Hlt|Hge].
    + destruct (detrended_of_nth x (i + 1 * 12)) as (v & Hv); [lia..|].
      apply (mean_defined _ v). apply (In_slice_step _ i 12 1); [lia | exact Hv].
    + destruct (detrended_of_nth x (i + 0 * 12)) as (v & Hv); [lia..|].
      apply (mean_defined _ v). apply (In_slice_step _ i 12 0); [lia | exact Hv].
  - exists raw. split; [exact Hraw | exact Hlen].
Qed.

Lemma seasonal_indices_eq (x : list Q) (raw : list Q) :
  seasonal_mean (detrended_of x) 12 = map Some raw ->
  List.length raw = 12%nat ->
  seasonal_indices x = map (fun r => Some (r - Qsum raw / 12)) raw.
Proof.
  intros Hraw Hlen. unfold seasonal_indices. rewrite Hraw.
  unfold np_mean. rewrite mapM_id_map_Some. unfold bind. rewrite Hlen.
  rewrite map_map. reflexivity.
Qed.

Lemma concat_repeat_nth {A : Type} (a : list A) (reps i : nat) :
  a <> [] ->
  (i < reps * List.length a)%nat ->
  nth_error (List.concat (repeat a reps)) i = nth_error a (i mod List.length a).
Proof.
  intros Ha. assert (Hp : (0 < List.length a)%nat) by (destruct a; simpl; [congruence | lia]).
  revert i. induction reps as [|reps IH]; intros i Hi; [simpl in Hi; lia|].
  cbn [repeat List.concat].
  destruct (Nat.lt_ge_cases i (List.length a)) as [Hlt|Hge].
  - rewrite nth_error_app1 by exact Hlt. rewrite Nat.mod_small by exact Hlt. reflexivity.
  - rewrite nth_error_app2 by exact Hge. rewrite IH by (simpl in Hi; lia).
    f_equal.
    replace i with ((i - List.length a) + 1 * List.length a)%nat at 2 by lia.
    rewrite Nat.Div0.mod_add. reflexivity.
Qed.

Lemma tile_nth {A : Type} (a : list A) (n i : nat) :
  a <> [] ->
  (i < n)%nat ->
  nth_error (tile a (n / List.length a + 1) n) i = nth_error a (i mod List.length a).
Proof.
  intros Ha Hi. unfold tile.
  assert (Hp : (0 < List.length a)%nat) by (destruct a; simpl; [congruence | lia]).
  rewrite nth_error_firstn.
  replace (i <? n)%nat with true by (symmetry; apply Nat.ltb_lt; exact Hi).
  apply concat_repeat_nth; [exact Ha|].
  pose proof (Nat.div_mod n (List.length a)) as Hd.
  pose proof (Nat.mod_upper_bound n (List.length a)) as Hm. nia.
Qed.





Import Dashboard EsatApp.

(** * Further properties *)

(** ** Decomposition: the three components *)

Lemma nth_error_map_combine {A B C : Type} (f : A * B -> C) (a : list A) (b : list B)
    (i : nat) (x : A) (y : B) :
  nth_error a i = Some x -> nth_error b i = Some y ->
  nth_error (map f (combine a b)) i = Some (f (x, y)).
Proof.
  revert b i. induction a as [|a0 a IH]; intros b i Ha Hb.
  - destruct i; discriminate.
  - destruct b as [|b0 b]; [destruct i; discriminate|].
    destruct i as [|i]; simpl in *.
    + congruence.
    + apply IH; assumption.
Qed.

Lemma seasonal_decompose_resid (x : list Q) (d : DecomposeResult) :
  seasonal_decompose (map Some x) 12 = Some d ->
  resid d = map (fun p => sub_opt (fst p) (snd p))
                (combine (detrended_of x) (seasonal d)).
Proof.
  unfold seasonal_decompose. rewrite mapM_id_map_Some. unfold bind.
  destruct (List.length x <? 2 * 12)%nat; [discriminate|].
  intros H. injection H as <-. reflexivity.
Qed.

Lemma seasonal_nth_defined (x : list Q) (d : DecomposeResult) (i : nat) :
  (24 <= List.length x)%nat ->
  seasonal d = tile (seasonal_indices x) (List.length x / 12 + 1) (List.length x) ->
  (i < List.length x)%nat ->
  exists s, nth_error (seasonal d) i = Some (Some s).
Proof.
  intros H Hs Hi.
  destruct (seasonal_mean_defined x H) as (raw & Hraw & Hlen).
  pose proof (seasonal_indices_eq x raw Hraw Hlen) as Hidx.
  assert (Hil : List.length (seasonal_indices x) = 12%nat)
    by (rewrite Hidx, length_map; exact Hlen).
  assert (Hne : seasonal_indices x <> []).
  { intros E. rewrite E in Hil. discriminate. }
  assert (E : nth_error (seasonal d) i = nth_error (seasonal_indices x) (i mod 12)).
  { rewrite Hs. rewrite <- Hil at 1 2. apply tile_nth; assumption. }
  rewrite E, Hidx, nth_error_map.
  destruct (nth_error raw (i mod 12)) as [r|] eqn:Er; [simpl; eauto|].
  apply nth_error_None in Er. rewrite Hlen in Er.
  pose proof (Nat.mod_upper_bound i 12). lia.
Qed.

Lemma tile_length {A : Type} (a : list A) (n : nat) :
  a <> [] ->
  List.length (tile a (n / List.length a + 1) n) = n.
Proof.
  intros Ha. unfold tile.
  assert (Hp : (0 < List.length a)%nat) by (destruct a; simpl; [congruence | lia]).
  rewrite length_firstn. apply Nat.min_l.
  assert (Hc : forall k, List.length (List.concat (repeat a k)) = (k * List.length a)%nat).
  { induction k as [|k IH]; [reflexivity|].
    cbn [repeat List.concat]. rewrite length_app, IH. simpl. lia. }
  rewrite Hc.
  pose proof (Nat.div_mod n (List.length a)) as Hd.
  pose proof (Nat.mod_upper_bound n (List.length a)) as Hm. nia.
Qed.

(** X1.  For at least 24 values the decomposition succeeds; trend,
    seasonal and residual have one entry per value; the seasonal
    component is defined everywhere; the residual is undefined exactly
    where the trend is; and wherever the trend is defined the observed
    value is the sum of trend, seasonal and residual. *)
Theorem X1_components_add_up (x : list Q) :
  (24 <= List.length x)%nat ->
  exists d,
    seasonal_decompose (map Some x) 12 = Some d
    /\ observed d = x
    /\ List.length (trend d) = List.length x
    /\ List.length (seasonal d) = List.length x
    /\ List.length (resid d) = List.length x
    /\ (forall i, (i < List.length x)%nat ->
          exists s, nth_error (seasonal d) i = Some (Some s))
    /\ (forall i, nth_error (resid d) i = Some None <->
                  nth_error (trend d) i = Some None)
    /\ (forall i t, nth_error (trend d) i = Some (Some t) ->
          exists s r,
            nth_error (seasonal d) i = Some (Some s)
            /\ nth_error (resid d) i = Some (Some r)
            /\ nth i x 0 == t + s + r).
Proof.
  intros H.
  destruct (seasonal_decompose_eq x H) as (d & Hd & Ho & Ht & Hs).
  pose proof (seasonal_decompose_resid x d Hd) as Hr.
  destruct (seasonal_mean_defined x H) as (raw & Hraw & Hlen).
  pose proof (seasonal_indices_eq x raw Hraw Hlen) as Hidx.
  assert (Hne : seasonal_indices x <> []).
  { intros E. rewrite E in Hidx. destruct raw; discriminate. }
  assert (Hil : List.length (seasonal_indices x) = 12%nat)
    by (rewrite Hidx, length_map; exact Hlen).
  assert (Hlt : List.length (trend d) = List.length x)
    by (rewrite Ht; apply trend_of_length; lia).
  assert (Hls : List.length (seasonal d) = List.length x).
  { rewrite Hs. rewrite <- Hil at 1. apply tile_length. exact Hne. }
  assert (Hld : List.length (detrended_of x) = List.length x).
  { unfold detrended_of. rewrite length_map, length_combine, <- Ht, Hlt. lia. }
  assert (Hlr : List.length (resid d) = List.length x).
  { rewrite Hr, length_map, length_combine, Hld, Hls. lia. }
  assert (Hseas : forall i, (i < List.length x)%nat ->
                            exists s, nth_error (seasonal d) i = Some (Some s)).
  { intros i Hi. exact (seasonal_nth_defined x d i H Hs Hi). }
  assert (Hres : forall i, (i < List.length x)%nat ->
            exists s, nth_error (seasonal d) i = Some (Some s) /\
                      nth_error (resid d) i
                      = Some (sub_opt (sub_opt (Some (nth i x 0)) (nth i (trend d) None))
                                      (Some s))).
  { intros i Hi. destruct (Hseas i Hi) as (s & Hsi). exists s. split; [exact Hsi|].
    rewrite Hr.
    apply (nth_error_map_combine (fun p => sub_opt (fst p) (snd p))); [|exact Hsi].
    unfold detrended_of.
    apply (nth_error_map_combine (fun p => sub_opt (Some (fst p)) (snd p))).
    - apply nth_error_nth'. exact Hi.
    - rewrite <- Ht. apply nth_error_nth'. lia. }
  exists d. repeat (split; [assumption|]). split.
  - intros i. destruct (Nat.lt_ge_cases i (List.length x)) as [Hi|Hi].
    + destruct (Hres i Hi) as (s & _ & Hri). rewrite Hri.
      rewrite (nth_error_nth' (trend d) None) by lia.
      destruct (nth i (trend d) None); simpl; split; congruence.
    + assert (E1 : nth_error (resid d) i = None) by (apply nth_error_None; lia).
      assert (E2 : nth_error (trend d) i = None) by (apply nth_error_None; lia).
      rewrite E1, E2. tauto.
  - intros i t Hti.
    assert (Hi : (i < List.length x)%nat).
    { rewrite <- Hlt. apply nth_error_Some. congruence. }
    destruct (Hres i Hi) as (s & Hsi & Hri).
    rewrite (nth_error_nth _ _ None Hti) in Hri. simpl in Hri.
    exists s, (nth i x 0 - t - s). split; [exact Hsi|]. split; [exact Hri|]. ring.
Qed.

Lemma X1_components_add_up_witness :
  exists d,
    seasonal_decompose (map Some (map (fun k => inject_Z (Z.of_nat (k * k))) (seq 0 24))) 12
      = Some d
    /\ observed d = map (fun k => inject_Z (Z.of_nat (k * k))) (seq 0 24)
    /\ List.length (trend d) = 24%nat
    /\ List.length (seasonal d) = 24%nat
    /\ List.length (resid d) = 24%nat
    /\ (forall i, (i < 24)%nat -> exists s, nth_error (seasonal d) i = Some (Some s))
    /\ (forall i, nth_error (resid d) i = Some None <->
                  nth_error (trend d) i = Some None)
    /\ (forall i t, nth_error (trend d) i = Some (Some t) ->
          exists s r,
            nth_error (seasonal d) i = Some (Some s)
            /\ nth_error (resid d) i = Some (Some r)
            /\ nth i (map (fun k => inject_Z (Z.of_nat (k * k))) (seq 0 24)) 0
               == t + s + r).
Proof.
  apply (X1_components_add_up (map (fun k => inject_Z (Z.of_nat (k * k))) (seq 0 24))).
  simpl. lia.
Defined.

(** ** Reindexing on the monthly grid *)

Lemma lookup_NoDup (s : Series) (t : Timestamp) (v : pyfloat) :
  NoDup (map fst s) -> In (t, v) s -> lookup t s = Some v.
Proof.
  induction s as [|[t' v'] rest IH]; simpl; intros Hnd Hin; [destruct Hin|].
  inversion Hnd as [|? ? Hnot Hrest]; subst.
  destruct Hin as [E|Hin].
  - injection E as -> ->. rewrite Z.eqb_refl. reflexivity.
  - destruct (t =? t')%Z eqn:E.
    + apply Z.eqb_eq in E. subst. exfalso. apply Hnot.
      apply in_map_iff. exists (t', v). auto.
    + apply IH; assumption.
Qed.

Lemma lookup_absent (s : Series) (t : Timestamp) :
  ~ In t (map fst s) -> lookup t s = None.
Proof.
  induction s as [|[t' v'] rest IH]; simpl; intros H; [reflexivity|].
  destruct (t =? t')%Z eqn:E.
  - apply Z.eqb_eq in E. subst. exfalso. apply H. left. reflexivity.
  - apply IH. intros Hin. apply H. right. exact Hin.
Qed.

Lemma date_range_nth (lo hi : Timestamp) (k : nat) :
  (k < List.length (date_range lo hi))%nat ->
  nth_error (date_range lo hi) k = Some (lo + Z.of_nat k)%Z.
Proof.
  intros H. unfold date_range in *. rewrite length_map, length_seq in H.
  rewrite nth_error_map.
  rewrite (nth_error_nth' _ 0%nat) by (rewrite length_seq; exact H).
  rewrite seq_nth by exact H. reflexivity.
Qed.

Lemma asfreq_MS_None_iff (s : Series) :
  asfreq_MS s = None <-> ~ NoDup (map fst s).
Proof.
  unfold asfreq_MS.
  destruct (index_min s) as [lo|] eqn:Elo.
  - destruct (index_max s) as [hi|] eqn:Ehi;
      [|apply index_max_None in Ehi; subst; discriminate].
    destruct (has_duplicates (map fst s)) eqn:Ed.
    + split; [|reflexivity]. intros _ Hnd.
      apply NoDup_has_duplicates in Hnd. congruence.
    + split; [discriminate|]. intros Hnd. exfalso. apply Hnd.
      apply has_duplicates_NoDup. exact Ed.
  - apply index_min_None in Elo. subst. simpl.
    split; [discriminate|]. intros H. exfalso. apply H. constructor.
Qed.

(** X2.  Reindexing on the monthly grid raises exactly when two
    entries of the series carry the same date.  Otherwise the grid of a
    series that is not empty has one point for each month from the
    earliest to the latest date, and an empty series gives an empty grid. *)
Theorem X2_asfreq_raises_on_duplicates (s : Series) :
  (asfreq_MS s = None <-> ~ NoDup (map fst s))
  /\ (forall g lo hi,
        asfreq_MS s = Some g -> index_min s = Some lo -> index_max s = Some hi ->
        Z.of_nat (List.length g) = (hi - lo + 1)%Z)
  /\ (s = [] -> asfreq_MS s = Some []).
Proof.
  split; [apply asfreq_MS_None_iff|]. split.
  - intros g lo hi Hg Hlo Hhi. unfold asfreq_MS in Hg. rewrite Hlo, Hhi in Hg.
    destruct (has_duplicates (map fst s)); [discriminate|].
    injection Hg as <-. rewrite length_map, date_range_length.
    destruct (index_min_spec _ _ Hlo) as [_ Hmin].
    destruct (index_max_spec _ _ Hhi) as [Hin _].
    specialize (Hmin _ Hin). lia.
  - intros ->. reflexivity.
Qed.

Lemma asfreq_MS_at (s : Series) (g : list (option pyfloat)) (lo : Timestamp) :
  asfreq_MS s = Some g ->
  index_min s = Some lo ->
  (forall t v, In (t, v) s -> nth_error g (Z.to_nat (t - lo)) = Some (Some v))
  /\ (forall k, (k < List.length g)%nat ->
        ~ In (lo + Z.of_nat k)%Z (map fst s) -> nth_error g k = Some None).
Proof.
  intros Hg Hlo. unfold asfreq_MS in Hg. rewrite Hlo in Hg.
  destruct (index_max s) as [hi|] eqn:Ehi;
    [|apply index_max_None in Ehi; subst; discriminate].
  destruct (has_duplicates (map fst s)) eqn:Ed; [discriminate|].
  apply has_duplicates_NoDup in Ed. injection Hg as <-.
  destruct (index_min_spec _ _ Hlo) as [_ Hmin].
  destruct (index_max_spec _ _ Ehi) as [_ Hmax].
  split.
  - intros t v Hin.
    assert (Hk : In t (map fst s)) by (apply in_map_iff; exists (t, v); auto).
    specialize (Hmin _ Hk). specialize (Hmax _ Hk).
    rewrite nth_error_map, date_range_nth by (rewrite date_range_length; lia).
    simpl. replace (lo + Z.of_nat (Z.to_nat (t - lo)))%Z with t by lia.
    rewrite (lookup_NoDup _ _ _ Ed Hin). reflexivity.
  - intros k Hk Hnot. rewrite length_map in Hk.
    rewrite nth_error_map, date_range_nth by exact Hk. simpl.
    rewrite (lookup_absent _ _ Hnot). reflexivity.
Qed.

(** X3.  On the grid every observation sits at the offset of its month
    from the earliest date, with its own value, and every other point of
    the grid is missing. *)
Theorem X3_asfreq_keeps_observations (s : Series) (g : list (option pyfloat))
    (lo : Timestamp) :
  asfreq_MS s = Some g ->
  index_min s = Some lo ->
  (forall t v, In (t, v) s -> nth_error g (Z.to_nat (t - lo)) = Some (Some v))
  /\ (forall k, (k < List.length g)%nat ->
        ~ In (lo + Z.of_nat k)%Z (map fst s) -> nth_error g k = Some None).
Proof. exact (asfreq_MS_at s g lo). Qed.

Lemma X3_asfreq_keeps_observations_witness :
  (forall t v,
      In (t, v) [(month_index 2020 3, Finite 7); (month_index 2020 1, Finite 5)] ->
      nth_error [Some (Finite 5); None; Some (Finite 7)]
                (Z.to_nat (t - month_index 2020 1)) = Some (Some v))
  /\ (forall k, (k < List.length [Some (Finite 5); None; Some (Finite 7)])%nat ->
        ~ In (month_index 2020 1 + Z.of_nat k)%Z
             (map fst [(month_index 2020 3, Finite 7); (month_index 2020 1, Finite 5)]) ->
        nth_error [Some (Finite 5); None; Some (Finite 7)] k = Some None).
Proof.
  apply (X3_asfreq_keeps_observations
           [(month_index 2020 3, Finite 7); (month_index 2020 1, Finite 5)]).
  - reflexivity.
  - reflexivity.
Defined.

(** ** Interpolation and fill *)

Lemma interpolate_after_keeps (g : list (option Q)) (i : nat) (v : Q) :
  forall a k, nth_error g i = Some (Some v) ->
              nth_error (interpolate_after a k g) i = Some (Some v).
Proof.
  revert i. induction g as [|o t IH]; intros i a k H; [destruct i; discriminate|].
  destruct i as [|i]; simpl in H.
  - injection H as ->. reflexivity.
  - destruct o; simpl; apply IH; exact H.
Qed.

Lemma interpolate_keeps (g : list (option Q)) (i : nat) (v : Q) :
  nth_error g i = Some (Some v) -> nth_error (interpolate g) i = Some (Some v).
Proof.
  revert i. induction g as [|o t IH]; intros i H; [destruct i; discriminate|].
  destruct i as [|i]; simpl in H.
  - injection H as ->. reflexivity.
  - destruct o; simpl; [apply interpolate_after_keeps | apply IH]; exact H.
Qed.

Lemma interpolate_after_Some (g : list (option Q)) (a : Q) (k i : nat) :
  (i < List.length g)%nat ->
  exists v, nth_error (interpolate_after a k g) i = Some (Some v).
Proof.
  intros Hi.
  destruct (nth_error (interpolate_after a k g) i) as [[v|]|] eqn:E.
  - eauto.
  - exfalso. apply (interpolate_after_complete g a k).
    apply nth_error_In with i. exact E.
  - apply nth_error_None in E. rewrite interpolate_after_length in E. lia.
Qed.

(** X4.  Linear interpolation keeps the length of the series and every
    value already present, and fills forward only: a point is still
    missing afterwards exactly when no value is present at or before it. *)
Theorem X4_interpolate_fills_forward (g : list (option Q)) :
  List.length (interpolate g) = List.length g
  /\ (forall i v, nth_error g i = Some (Some v) ->
                  nth_error (interpolate g) i = Some (Some v))
  /\ (forall i, nth_error (interpolate g) i = Some None <->
                (i < List.length g)%nat /\
                forall j, (j <= i)%nat -> nth_error g j = Some None).
Proof.
  split; [apply interpolate_length|]. split; [apply interpolate_keeps|].
  induction g as [|o t IH]; intros i.
  - simpl. destruct i; split; try discriminate; intros [H _]; simpl in H; lia.
  - destruct o as [v|].
    + split.
      * intros H. exfalso. apply (interpolate_head_complete v t).
        apply nth_error_In with i. exact H.
      * intros [_ H]. specialize (H 0%nat (Nat.le_0_l i)). discriminate.
    + cbn [interpolate]. destruct i as [|i].
      * simpl. split; [|reflexivity]. intros _. split; [lia|].
        intros j Hj. replace j with 0%nat by lia. reflexivity.
      * cbn [nth_error List.length]. rewrite IH. split.
        -- intros [Hi H]. split; [lia|]. intros [|j] Hj; [reflexivity|].
           apply H. lia.
        -- intros [Hi H]. split; [lia|]. intros j Hj. apply (H (S j)). lia.
Qed.

Lemma next_valid_gap (m : nat) (b : Q) (post : list (option Q)) :
  next_valid (repeat None m ++ Some b :: post) = Some (m, b).
Proof.
  induction m as [|m IH]; simpl; [reflexivity|]. rewrite IH. reflexivity.
Qed.

Lemma interpolate_after_gap (m : nat) (b : Q) (post : list (option Q)) :
  forall a k,
    interpolate_after a k (repeat None m ++ Some b :: post)
    = map (fun i => Some (a + (b - a) * inject_Z (Z.of_nat (k + i))
                             / inject_Z (Z.of_nat (k + m))))
          (seq 0 m)
      ++ Some b :: interpolate_after b 1 post.
Proof.
  induction m as [|m IH]; intros a k; [reflexivity|].
  cbn [repeat app interpolate_after]. rewrite next_valid_gap.
  rewrite IH. cbn [seq map app]. f_equal.
  - rewrite Nat.add_0_r. do 4 f_equal. lia.
  - f_equal. rewrite <- seq_shift, map_map. apply map_ext. intros i.
    do 5 f_equal; lia.
Qed.

Lemma interpolate_reaches_value (pre : list (option Q)) (a : Q) (t : list (option Q)) :
  exists pre', List.length pre' = List.length pre
               /\ interpolate (pre ++ Some a :: t)
                  = pre' ++ Some a :: interpolate_after a 1 t.
Proof.
  assert (Hafter : forall p a0 k,
            exists pre', List.length pre' = List.length p
                         /\ interpolate_after a0 k (p ++ Some a :: t)
                            = pre' ++ Some a :: interpolate_after a 1 t).
  { induction p as [|o p IHp]; intros a0 k.
    - exists []. split; reflexivity.
    - destruct o as [v|]; cbn [app interpolate_after].
      + destruct (IHp v 1%nat) as (pre' & Hlen & E).
        exists (Some v :: pre'). rewrite E. simpl. auto.
      + destruct (IHp a0 (S k)) as (pre' & Hlen & E).
        eexists (_ :: pre'). rewrite E. simpl. split; [f_equal; exact Hlen | reflexivity]. }
  induction pre as [|o p IH].
  - exists []. split; reflexivity.
  - destruct o as [v|]; cbn [app interpolate].
    + destruct (Hafter p v 1%nat) as (pre' & Hlen & E).
      exists (Some v :: pre'). rewrite E. simpl. auto.
    + destruct IH as (pre' & Hlen & E).
      exists (None :: pre'). rewrite E. simpl. auto.
Qed.

(** X5.  A gap of [m] missing points between a value [a] and the next
    value [b] is filled on the straight line from [a] to [b]: the [k]-th
    point of the gap gets [a + (b - a) * k / (m + 1)], which lies between
    [a] and [b]. *)
Theorem X5_interpolate_linear (pre post : list (option Q)) (a b : Q) (m k : nat) :
  (1 <= k <= m)%nat ->
  nth_error (interpolate (pre ++ Some a :: repeat None m ++ Some b :: post))
            (List.length pre + k)
  = Some (Some (a + (b - a) * inject_Z (Z.of_nat k) / inject_Z (Z.of_nat (m + 1))))
  /\ (a <= b ->
      a <= a + (b - a) * inject_Z (Z.of_nat k) / inject_Z (Z.of_nat (m + 1)) <= b)
  /\ (b <= a ->
      b <= a + (b - a) * inject_Z (Z.of_nat k) / inject_Z (Z.of_nat (m + 1)) <= a).
Proof.
  intros Hk. split.
  - destruct (interpolate_reaches_value pre a (repeat None m ++ Some b :: post))
      as (pre' & Hlen & E).
    rewrite E, <- Hlen, nth_error_app2 by lia.
    replace (List.length pre' + k - List.length pre')%nat with (S (k - 1)) by lia.
    cbn [nth_error]. rewrite interpolate_after_gap.
    rewrite nth_error_app1 by (rewrite length_map, length_seq; lia).
    rewrite nth_error_map.
    rewrite (nth_error_nth' _ 0%nat) by (rewrite length_seq; lia).
    rewrite seq_nth by lia. cbn [option_map].
    replace (1 + (0 + (k - 1)))%nat with k by lia.
    replace (1 + m)%nat with (m + 1)%nat by lia. reflexivity.
  - set (c := inject_Z (Z.of_nat k) / inject_Z (Z.of_nat (m + 1))).
    assert (Hd : 0 < inject_Z (Z.of_nat (m + 1))).
    { change 0 with (inject_Z 0). rewrite <- Zlt_Qlt. lia. }
    assert (Hc0 : 0 <= c).
    { unfold c. apply Qle_shift_div_l; [exact Hd|]. rewrite Qmult_0_l.
      change 0 with (inject_Z 0). rewrite <- Zle_Qle. lia. }
    assert (Hc1 : c <= 1).
    { unfold c. apply Qle_shift_div_r; [exact Hd|]. rewrite Qmult_1_l.
      rewrite <- Zle_Qle. lia. }
    assert (E : forall u, u * inject_Z (Z.of_nat k) / inject_Z (Z.of_nat (m + 1)) == u * c).
    { intros u. unfold c, Qdiv. ring. }
    split; intros Hab; rewrite E; split; nra.
Qed.

Lemma X5_interpolate_linear_witness :
  nth_error (interpolate ([None] ++ Some 1 :: repeat None 3 ++ Some 9 :: [None]))
            (List.length [@None Q] + 2)
  = Some (Some (1 + (9 - 1) * inject_Z (Z.of_nat 2) / inject_Z (Z.of_nat (3 + 1))))
  /\ (1 <= 9 ->
      1 <= 1 + (9 - 1) * inject_Z (Z.of_nat 2) / inject_Z (Z.of_nat (3 + 1)) <= 9)
  /\ (9 <= 1 ->
      9 <= 1 + (9 - 1) * inject_Z (Z.of_nat 2) / inject_Z (Z.of_nat (3 + 1)) <= 1).
Proof.
  apply (X5_interpolate_linear [None] [None] 1 9 3 2). lia.
Defined.

Lemma no_value_fixed (g : list (option Q)) :
  (forall v, ~ In (Some v) g) -> interpolate g = g /\ mean g = None.
Proof.
  induction g as [|o t IH]; intros H; [split; reflexivity|].
  destruct o as [v|]; [exfalso; apply (H v); left; reflexivity|].
  destruct IH as [Hi Hm]; [intros v Hv; apply (H v); right; exact Hv|].
  split.
  - simpl. rewrite Hi. reflexivity.
  - unfold mean in *. simpl. exact Hm.
Qed.

Lemma fillna_keeps (g : list (option Q)) (m : option Q) (i : nat) (v : Q) :
  nth_error g i = Some (Some v) -> nth_error (fillna g m) i = Some (Some v).
Proof.
  intros H. destruct m as [w|]; simpl; [|exact H].
  rewrite nth_error_map, H. reflexivity.
Qed.

Lemma fillna_complete (g : list (option Q)) (w : Q) : complete (fillna g (Some w)).
Proof.
  simpl. intros H. apply in_map_iff in H as ([x|] & Hx & _); discriminate.
Qed.

(** X6.  Lines 360 to 363 keep the length of the series and every
    value already present; as soon as the series holds one value no
    point is missing afterwards; and applying them twice gives the same
    as applying them once. *)
Theorem X6_aligned_complete_idempotent (g : list (option Q)) :
  List.length (aligned g) = List.length g
  /\ (forall i v, nth_error g i = Some (Some v) ->
                  nth_error (aligned g) i = Some (Some v))
  /\ ((exists v, In (Some v) g) -> complete (aligned g))
  /\ aligned (aligned g) = aligned g.
Proof.
  assert (Hc : (exists v, In (Some v) g) -> complete (aligned g)).
  { intros (v & Hv). unfold aligned.
    destruct (In_nth_error _ _ Hv) as (i & Hi).
    apply interpolate_keeps in Hi. apply nth_error_In in Hi.
    destruct (mean_defined _ _ Hi) as (m & ->). apply fillna_complete. }
  split; [apply aligned_length|]. split; [|split; [exact Hc|]].
  - intros i v H. unfold aligned. apply fillna_keeps, interpolate_keeps. exact H.
  - destruct (known g) as [|v vs] eqn:Ek.
    + assert (Hno : forall v, ~ In (Some v) g).
      { intros v Hv. assert (Hin : In v (known g)).
        { unfold known. apply in_flat_map. exists (Some v). split; [exact Hv|].
          left. reflexivity. }
        rewrite Ek in Hin. destruct Hin. }
      destruct (no_value_fixed g Hno) as [Hi Hm].
      assert (E : aligned g = g) by (unfold aligned; rewrite Hi, Hm; reflexivity).
      rewrite E. exact E.
    + assert (Hv : In (Some v) g).
      { assert (Hin : In v (known g)) by (rewrite Ek; left; reflexivity).
        unfold known in Hin. apply in_flat_map in Hin as ([x|] & Hx & Hin).
        - destruct Hin as [->|[]]. exact Hx.
        - destruct Hin. }
      destruct (complete_inv _ (Hc (ex_intro _ v Hv))) as (qs & ->).
      apply aligned_map_Some.
Qed.

(** X7.  The two places that align a series agree: the fill with the
    mean of the series before reindexing (lines 415 and 416) gives the
    same aligned series as the fill with the mean after interpolation
    (lines 356 to 363), since on such a grid nothing is left to fill. *)
Theorem X7_aligned_series_temp_agrees (s : Series) :
  aligned_series_temp s = aligned_series s.
Proof.
  unfold aligned_series_temp, aligned_series, bind.
  destruct (asfreq_MS (dropna_series s)) as [g|] eqn:Eg; [|reflexivity].
  destruct (finite_grid g) as [gq|] eqn:Eq; [|reflexivity].
  destruct (aligned_grid_complete _ _ _ Eg Eq) as [Hc Ea].
  rewrite Ea. destruct (complete_inv _ Hc) as (qs & ->).
  rewrite fillna_map_Some. reflexivity.
Qed.

(** ** When the decomposition is not available *)

Lemma aligned_decomposes (s : Series) (g : list (option pyfloat)) (gq : list (option Q)) :
  asfreq_MS (dropna_series s) = Some g ->
  finite_grid g = Some gq ->
  (24 < List.length (aligned gq))%nat ->
  exists d, seasonal_decompose (aligned gq) 12 = Some d.
Proof.
  intros Eg Eq Hl.
  destruct (aligned_grid_complete _ _ _ Eg Eq) as [Hc Ea].
  destruct (complete_inv _ Hc) as (qs & Hqs). rewrite Ea, Hqs in *.
  destruct (seasonal_decompose_complete qs) as (d & Hd & _).
  - rewrite length_map in Hl. lia.
  - eauto.
Qed.

Lemma finite_grid_None (g : list (option pyfloat)) :
  finite_grid g = None <-> exists neg, In (Some (Infinite neg)) g.
Proof.
  unfold finite_grid. rewrite mapM_None_Exists, Exists_exists. split.
  - intros ([[q|neg|]|] & Hin & H); try discriminate. eauto.
  - intros (neg & Hin). exists (Some (Infinite neg)). auto.
Qed.

Lemma asfreq_MS_In (s : Series) (g : list (option pyfloat)) (v : pyfloat) :
  asfreq_MS s = Some g ->
  (In (Some v) g <-> exists t, In (t, v) s).
Proof.
  intros Hg. split.
  - intros Hin. unfold asfreq_MS in Hg.
    destruct (index_min s) as [lo|]; [|injection Hg as <-; destruct Hin].
    destruct (index_max s) as [hi|]; [|injection Hg as <-; destruct Hin].
    destruct (has_duplicates (map fst s)); [discriminate|]. injection Hg as <-.
    apply in_map_iff in Hin as (t & Ht & _). exists t. apply lookup_In. exact Ht.
  - intros (t & Hin).
    destruct (index_min s) as [lo|] eqn:Elo;
      [|apply index_min_None in Elo; subst; destruct Hin].
    destruct (asfreq_MS_at s g lo Hg Elo) as [H _].
    apply nth_error_In with (Z.to_nat (t - lo)). apply H. exact Hin.
Qed.

(** X8.  The decomposition column reports "not available" exactly when
    the region is selected, its table has more than 24 rows, and one of
    three things holds: the table has no [Date] with [Occupancy_Rate]
    column; two of its observations carry the same month; or its grid
    has more than 24 points and an observation is infinite.  The
    decomposition itself never fails on an aligned series of more than
    24 points. *)
Theorem X8_not_available (selected : bool) (df : DataFrame) :
  seasonal_decomposition selected (Some df) = NotAvailable <->
  selected = true /\ (24 < len df)%nat /\
  (occupancy_series df = None
   \/ exists s, occupancy_series df = Some s /\
        (~ NoDup (map fst (dropna_series s))
         \/ exists g t neg,
              asfreq_MS (dropna_series s) = Some g
              /\ (24 < List.length g)%nat
              /\ In (t, Infinite neg) s)).
Proof.
  unfold seasonal_decomposition.
  destruct selected; simpl andb; [|split; [discriminate | intros [H _]; discriminate]].
  destruct (24 <? len df)%nat eqn:El;
    [apply Nat.ltb_lt in El | apply Nat.ltb_ge in El;
       split; [discriminate | intros (_ & H & _); lia]].
  unfold bind.
  destruct (occupancy_series df) as [s|]; [|split; auto].
  destruct (asfreq_MS (dropna_series s)) as [g|] eqn:Eg.
  - destruct (finite_grid g) as [gq|] eqn:Eq.
    + cbv zeta. split.
      * intros H. exfalso.
        destruct (24 <? List.length (aligned gq))%nat eqn:Ea; [|discriminate].
        apply Nat.ltb_lt in Ea.
        destruct (aligned_decomposes _ _ _ Eg Eq Ea) as (d & Hd).
        rewrite Hd in H. discriminate.
      * intros (_ & _ & [H|(s' & Hs & [Hd|(g' & t & neg & Hg' & Hl & Hin)])]).
        -- discriminate.
        -- injection Hs as <-. exfalso.
           apply asfreq_MS_None_iff in Hd. congruence.
        -- injection Hs as <-. rewrite Eg in Hg'. injection Hg' as <-. exfalso.
           assert (Hfin : finite_grid g = None).
           { apply finite_grid_None. exists neg.
             apply (asfreq_MS_In _ _ _ Eg). exists t.
             unfold dropna_series. apply filter_In. split; [exact Hin | reflexivity]. }
           congruence.
    + destruct (24 <? List.length g)%nat eqn:Eg24.
      * split; [|reflexivity]. intros _. split; [reflexivity|]. split; [exact El|].
        right. exists s. split; [reflexivity|]. right.
        apply finite_grid_None in Eq as (neg & Hin).
        apply (asfreq_MS_In _ _ _ Eg) in Hin as (t & Hin).
        exists g, t, neg. split; [exact Eg|]. split; [apply Nat.ltb_lt; exact Eg24|].
        unfold dropna_series in Hin. apply filter_In in Hin. tauto.
      * apply Nat.ltb_ge in Eg24. split; [discriminate|].
        intros (_ & _ & [H|(s' & Hs & [Hd|(g' & t & neg & Hg' & Hl & Hin)])]).
        -- discriminate.
        -- injection Hs as <-. exfalso.
           apply asfreq_MS_None_iff in Hd. congruence.
        -- injection Hs as <-. rewrite Eg in Hg'. injection Hg' as <-. lia.
  - split; [|reflexivity]. intros _. split; [reflexivity|]. split; [exact El|].
    right. exists s. split; [reflexivity|]. left.
    apply asfreq_MS_None_iff. exact Eg.
Qed.

Lemma observation_no_nan (r : list Cell) (o : Row) :
  In o (observation r) -> PyFloat.isnan (Value o) = false.
Proof.
  unfold observation.
  destruct (clean_date (nth 0 r None)) as [d|]; [|intros []].
  destruct (clean_value (nth 1 r None)) as [v|]; [|intros []].
  destruct (PyFloat.isnan v) eqn:E; [intros []|].
  intros [<-|[]]. exact E.
Qed.

Lemma dropna_series_all (rows : list Row) :
  Forall (fun o => PyFloat.isnan (Value o) = false) rows ->
  dropna_series (map (fun r => (Date r, Value r)) rows)
  = map (fun r => (Date r, Value r)) rows.
Proof.
  induction 1 as [|o rows Ho _ IH]; [reflexivity|].
  simpl. rewrite Ho. simpl. rewrite IH. reflexivity.
Qed.

Lemma clean_table_observations (t : RawTable) (region_name : string) :
  (3 <= width t)%nat ->
  Forall (fun r => clean_value (nth 1 r None) <> None) (cells t) ->
  exists rows,
    clean_table t region_name
    = Some (CleanFrame (if contains "Hotels" region_name
                        then "Hotel_Count" else "Occupancy_Rate") rows region_name)
    /\ Permutation rows (flat_map observation (cells t)).
Proof.
  intros Hw Hall.
  assert (Hrow : Forall (fun r => clean_row r <> None) (cells t)).
  { revert Hall. apply Forall_impl. intros r Hr. cbv beta in Hr.
    unfold clean_row, bind, Cell in *.
    destruct (clean_value (nth 1 r None)); [discriminate | congruence]. }
  destruct (mapM_total _ _ Hrow) as (cleaned & Hc).
  exists (sort_values (dropna cleaned)). split.
  - unfold clean_table. apply Nat.leb_le in Hw. rewrite Hw, Hc. reflexivity.
  - rewrite sort_values_perm, (dropna_observations _ _ Hc). reflexivity.
Qed.

(** X9.  In a file of a region other than the hotel counts, whose
    values all convert and which yields more than 24 observations, two
    records of the same month are both kept by [load_insee_data], the
    table passes [process_data], and the decomposition of the region
    then reports "not available": reindexing raises on the repeated
    date. *)
Theorem X9_repeated_month_not_available (t : RawTable) (region_name : string)
    (l1 l2 l3 : list (list Cell)) (r1 r2 : list Cell) (o1 o2 : Row) :
  (3 <= width t)%nat ->
  contains "Hotels" region_name = false ->
  Forall (fun r => clean_value (nth 1 r None) <> None) (cells t) ->
  cells t = l1 ++ r1 :: l2 ++ r2 :: l3 ->
  observation r1 = [o1] -> observation r2 = [o2] -> Date o1 = Date o2 ->
  (24 < List.length (flat_map observation (cells t)))%nat ->
  exists df,
    clean_table t region_name = Some df
    /\ process_data (Some df) = Some df
    /\ seasonal_decomposition true (process_data (Some df)) = NotAvailable.
Proof.
  intros Hw Hreg Hall Hcells Ho1 Ho2 Hd Hlen.
  destruct (clean_table_observations t region_name Hw Hall) as (rows & Hdf & Hperm).
  rewrite Hreg in Hdf.
  assert (Hl : List.length rows = List.length (flat_map observation (cells t)))
    by (apply Permutation_length; exact Hperm).
  assert (Hp : process_data (Some (CleanFrame "Occupancy_Rate" rows region_name))
               = Some (CleanFrame "Occupancy_Rate" rows region_name)).
  { unfold process_data, empty. simpl len.
    replace (List.length rows =? 0)%nat with false
      by (symmetry; apply Nat.eqb_neq; lia).
    reflexivity. }
  eexists. split; [exact Hdf|]. split; [exact Hp|]. rewrite Hp.
  unfold seasonal_decomposition. simpl len.
  replace (24 <? List.length rows)%nat with true by (symmetry; apply Nat.ltb_lt; lia).
  simpl andb. unfold bind. simpl occupancy_series.
  assert (Hnan : Forall (fun o => PyFloat.isnan (Value o) = false) rows).
  { apply Forall_forall. intros o Hin.
    apply (Permutation_in _ Hperm) in Hin. apply in_flat_map in Hin as (r & _ & Hin).
    exact (observation_no_nan r o Hin). }
  cbv iota beta. rewrite (dropna_series_all _ Hnan).
  assert (E : asfreq_MS (map (fun r => (Date r, Value r)) rows) = None).
  { apply asfreq_MS_None_iff. rewrite map_map. simpl. intros Hnd.
    apply (Permutation_NoDup (Permutation_map Date Hperm)) in Hnd.
    rewrite Hcells in Hnd.
    rewrite flat_map_app in Hnd. cbn [flat_map] in Hnd.
    rewrite flat_map_app in Hnd. cbn [flat_map] in Hnd.
    rewrite Ho1, Ho2 in Hnd. rewrite !map_app in Hnd. simpl in Hnd.
    apply NoDup_remove_2 in Hnd. apply Hnd.
    apply in_or_app. right. apply in_or_app. right.
    left. symmetry. exact Hd. }
  rewrite E. reflexivity.
Qed.

Lemma X9_repeated_month_not_available_witness :
  exists df,
    clean_table (mkRawTable 3 (repeat (cell_row "2020-01" "1,5" "A") 26)) "Marne" = Some df
    /\ process_data (Some df) = Some df
    /\ seasonal_decomposition true (process_data (Some df)) = NotAvailable.
Proof.
  apply (X9_repeated_month_not_available
           (mkRawTable 3 (repeat (cell_row "2020-01" "1,5" "A") 26)) "Marne"
           [] [] (repeat (cell_row "2020-01" "1,5" "A") 24)
           (cell_row "2020-01" "1,5" "A") (cell_row "2020-01" "1,5" "A")
           (mkRow (month_index 2020 1) (Finite (3 # 2)) "A" [])
           (mkRow (month_index 2020 1) (Finite (3 # 2)) "A" [])).
  - simpl. lia.
  - reflexivity.
  - simpl. repeat constructor; vm_compute; discriminate.
  - reflexivity.
  - reflexivity.
  - reflexivity.
  - reflexivity.
  - vm_compute. lia.
Defined.

(** ** What [load_insee_data] returns *)

Lemma load_Loaded (response : option (list ZipEntry)) (region_name : string)
    (df : DataFrame) :
  load_insee_data response region_name = Loaded df ->
  exists zip f e t,
    response = Some zip /\ select_data_file (map name zip) = Some f
    /\ zip_open zip f = Some e /\ read_csv e = Some t
    /\ clean_table t region_name = Some df.
Proof.
  unfold load_insee_data. destruct response as [zip|]; [|discriminate].
  destruct (select_data_file (map name zip)) as [f|] eqn:Ef; [|discriminate].
  unfold bind. destruct (zip_open zip f) as [e|] eqn:Ee; [|discriminate].
  destruct (read_csv e) as [t|] eqn:Et; [|discriminate].
  destruct (clean_table t region_name) as [df'|] eqn:Ec; [|discriminate].
  intros H. injection H as <-. exists zip, f, e, t.
  repeat split; assumption.
Qed.

Lemma replace_removes (c : ascii) (s : string) :
  ~ In c (list_ascii_of_string (replace c "" s)).
Proof.
  induction s as [|x s IH]; simpl; [intros []|].
  destruct (Ascii.eqb x c) eqn:E; simpl; [exact IH|].
  intros [H|H]; [|exact (IH H)].
  subst. rewrite Ascii.eqb_refl in E. discriminate.
Qed.

Lemma dropna_length (cleaned : list Cleaned) :
  (List.length (dropna cleaned) <= List.length cleaned)%nat.
Proof.
  induction cleaned as [|c t IH]; [apply Nat.le_refl|].
  unfold dropna in *. simpl. rewrite length_app.
  destruct (cDate c); [destruct (PyFloat.isnan (cValue c))|]; simpl; lia.
Qed.

(** X10.  A cleaned table that [load_insee_data] returns carries the
    region it was asked for; its value column is [Hotel_Count] when the
    region name contains [Hotels] and [Occupancy_Rate] otherwise; every
    row has a value that is not NaN and a status without any double
    quote; and it has no more rows than the file has records. *)
Theorem X10_loaded_table_clean (response : option (list ZipEntry))
    (region_name value_col region : string) (rows : list Row) :
  load_insee_data response region_name = Loaded (CleanFrame value_col rows region) ->
  region = region_name
  /\ value_col = (if contains "Hotels" region_name
                  then "Hotel_Count" else "Occupancy_Rate")
  /\ Forall (fun r => Value r <> NaN
                      /\ ~ In dquote (list_ascii_of_string (Status r))) rows
  /\ exists zip f e t,
       response = Some zip /\ select_data_file (map name zip) = Some f
       /\ zip_open zip f = Some e /\ read_csv e = Some t
       /\ (3 <= width t)%nat
       /\ (List.length rows <= List.length (cells t))%nat.
Proof.
  intros H. destruct (load_Loaded _ _ _ H) as (zip & f & e & t & Hr & Hf & He & Ht & Hc).
  assert (Hw : (3 <= width t)%nat).
  { unfold clean_table in Hc. destruct (3 <=? width t)%nat eqn:E.
    - apply Nat.leb_le. exact E.
    - discriminate. }
  destruct (clean_table_wide _ _ _ Hw Hc) as (cleaned & Hm & E).
  injection E as -> -> ->.
  split; [reflexivity|]. split; [reflexivity|]. split.
  - apply Forall_forall. intros r Hin.
    apply (Permutation_in _ (sort_values_perm _)) in Hin.
    rewrite (dropna_observations _ _ Hm) in Hin.
    apply in_flat_map in Hin as (c & _ & Hin).
    pose proof (observation_no_nan c r Hin) as Hnan.
    unfold observation in Hin.
    destruct (clean_date (nth 0 c None)) as [d|] eqn:Ed; [|destruct Hin].
    destruct (clean_value (nth 1 c None)) as [v|]; [|destruct Hin].
    destruct (PyFloat.isnan v); [destruct Hin|].
    destruct Hin as [<-|[]]. simpl in *. split.
    + intros ->. discriminate.
    + apply replace_removes.
  - exists zip, f, e, t. repeat (split; [assumption|]).
    rewrite (Permutation_length (sort_values_perm _)).
    apply mapM_Some_Forall2, Forall2_length in Hm. rewrite Hm. apply dropna_length.
Qed.

Lemma X10_loaded_table_clean_witness :
  ("Grand Est Hotels" = "Grand Est Hotels")
  /\ "Hotel_Count" = (if contains "Hotels" "Grand Est Hotels"
                      then "Hotel_Count" else "Occupancy_Rate")
  /\ Forall (fun r => Value r <> NaN
                      /\ ~ In dquote (list_ascii_of_string (Status r)))
            [mkRow (month_index 2020 1) (Finite 3120) "A" []]
  /\ exists zip f e t,
       Some [mkZipEntry "valeurs_mensuelles.csv"
               (Some (mkRawTable 3 [cell_row "2020-01" "3120" "A";
                                    [Some "Codes"; None; None]]))] = Some zip
       /\ select_data_file (map name zip) = Some f
       /\ zip_open zip f = Some e /\ read_csv e = Some t
       /\ (3 <= width t)%nat
       /\ (List.length [mkRow (month_index 2020 1) (Finite 3120) "A" []]
           <= List.length (cells t))%nat.
Proof.
  apply (X10_loaded_table_clean
           (Some [mkZipEntry "valeurs_mensuelles.csv"
                    (Some (mkRawTable 3 [cell_row "2020-01" "3120" "A";
                                         [Some "Codes"; None; None]]))])
           "Grand Est Hotels").
  vm_compute. reflexivity.
Defined.

(** X23.  In a table of at least three columns whose value cells all
    convert, no record is lost: the rows returned are, up to order, the
    observations of the records; a record stands for at most one
    observation, and for exactly one, with its date and the float read
    from its value text, when its date has the form YYYY-MM and its
    value is not NaN. *)
Theorem X23_valid_records_all_observed (t : RawTable) (region_name : string) :
  (3 <= width t)%nat ->
  Forall (fun r => clean_value (nth 1 r None) <> None) (cells t) ->
  exists rows,
    clean_table t region_name
    = Some (CleanFrame (if contains "Hotels" region_name
                        then "Hotel_Count" else "Occupancy_Rate") rows region_name)
    /\ Permutation rows (flat_map observation (cells t))
    /\ (forall r, (List.length (observation r) <= 1)%nat)
    /\ (forall r d v,
          In r (cells t) ->
          to_datetime (replace dquote "" (astype_str (nth 0 r None))) = Some d ->
          PyFloat.float_of_string
            (replace "," "." (replace dquote "" (astype_str (nth 1 r None)))) = Some v ->
          PyFloat.isnan v = false ->
          exists o, observation r = [o] /\ In o rows /\ Date o = d /\ Value o = v).
Proof.
  intros Hw Hall.
  destruct (clean_table_observations t region_name Hw Hall) as (rows & Hdf & Hperm).
  exists rows. split; [exact Hdf|]. split; [exact Hperm|]. split.
  - intros r. unfold observation.
    destruct (clean_date (nth 0 r None)); [|simpl; lia].
    destruct (clean_value (nth 1 r None)) as [v|]; [|simpl; lia].
    destruct (PyFloat.isnan v); simpl; lia.
  - intros r d v Hr Hd Hv Hnan.
    assert (Ho : observation r = [mkRow d v (clean_status (nth 2 r None)) (skipn 3 r)]).
    { unfold observation, clean_date, clean_value. rewrite Hd, Hv, Hnan. reflexivity. }
    exists (mkRow d v (clean_status (nth 2 r None)) (skipn 3 r)).
    split; [exact Ho|]. split; [|split; reflexivity].
    apply (Permutation_in _ (Permutation_sym Hperm)).
    apply in_flat_map. exists r. split; [exact Hr|]. rewrite Ho. left. reflexivity.
Qed.

Lemma X23_valid_records_all_observed_witness :
  let t := mkRawTable 3 [cell_row "2020-02" "3,5" "A"; cell_row "2020-13" "1,0" "A";
                         [Some "2020-01"; None; Some "A"]] in
  exists rows,
    clean_table t "Marne" = Some (CleanFrame "Occupancy_Rate" rows "Marne")
    /\ Permutation rows (flat_map observation (cells t))
    /\ (forall r, (List.length (observation r) <= 1)%nat)
    /\ (forall r d v,
          In r (cells t) ->
          to_datetime (replace dquote "" (astype_str (nth 0 r None))) = Some d ->
          PyFloat.float_of_string
            (replace "," "." (replace dquote "" (astype_str (nth 1 r None)))) = Some v ->
          PyFloat.isnan v = false ->
          exists o, observation r = [o] /\ In o rows /\ Date o = d /\ Value o = v).
Proof.
  intros t.
  apply (X23_valid_records_all_observed t "Marne").
  - simpl. lia.
  - repeat constructor; vm_compute; discriminate.
Defined.

Lemma select_data_file_In (namelist : list string) (f : string) :
  select_data_file namelist = Some f -> In f namelist.
Proof.
  unfold select_data_file.
  destruct (csv_files namelist) as [|first rest] eqn:Ecsv; [discriminate|].
  assert (Hsub : forall g, In g (first :: rest) -> In g namelist).
  { intros g Hg. rewrite <- Ecsv in Hg. apply filter_In in Hg. tauto. }
  destruct (filter is_data_file (first :: rest)) as [|d ds] eqn:Ed; intros H;
    injection H as <-.
  - apply Hsub. left. reflexivity.
  - apply Hsub.
    assert (Hin : In d (filter is_data_file (first :: rest)))
      by (rewrite Ed; left; reflexivity).
    apply filter_In in Hin. tauto.
Qed.

Lemma zip_open_In (zip : list ZipEntry) (f : string) :
  In f (map name zip) -> exists e, zip_open zip f = Some e /\ name e = f /\ In e zip.
Proof.
  intros H. apply in_map_iff in H as (e0 & Hn & Hin). unfold zip_open.
  destruct (find (fun e => String.eqb (name e) f) (rev zip)) as [e|] eqn:E.
  - apply find_some in E as [Hine He]. apply String.eqb_eq in He.
    exists e. split; [reflexivity|]. split; [exact He|]. apply in_rev. exact Hine.
  - exfalso. apply in_rev in Hin. apply (find_none _ _ E e0) in Hin.
    rewrite Hn, String.eqb_refl in Hin. discriminate.
Qed.

(** X11.  The entry that [load_insee_data] selects can always be
    opened.  With an archive at hand, the "Error loading data" outcome
    arises exactly when the entry cannot be read as a table, or the
    table has at least three columns and holds a value cell that does
    not convert to a float. *)
Theorem X11_load_error (zip : list ZipEntry) (region_name : string) :
  (forall f, select_data_file (map name zip) = Some f ->
     exists e, zip_open zip f = Some e /\ name e = f /\ In e zip)
  /\ (load_insee_data (Some zip) region_name = LoadError <->
      exists f e,
        select_data_file (map name zip) = Some f /\ zip_open zip f = Some e /\
        (read_csv e = None
         \/ exists t, read_csv e = Some t /\ (3 <= width t)%nat /\
              Exists (fun r => clean_value (nth 1 r None) = None) (cells t))).
Proof.
  assert (Hopen : forall f, select_data_file (map name zip) = Some f ->
            exists e, zip_open zip f = Some e /\ name e = f /\ In e zip).
  { intros f Hf. apply zip_open_In, select_data_file_In. exact Hf. }
  split; [exact Hopen|].
  unfold load_insee_data.
  destruct (select_data_file (map name zip)) as [f|] eqn:Ef.
  - destruct (Hopen f eq_refl) as (e & He & _). unfold bind. rewrite He.
    destruct (read_csv e) as [t|] eqn:Et.
    + destruct (clean_table t region_name) as [df|] eqn:Ec.
      * split; [discriminate|].
        intros (f' & e' & Hf' & He' & [Hr|(t' & Hr & Hw & Hex)]);
          injection Hf' as <-; rewrite He in He'; injection He' as <-.
        -- congruence.
        -- rewrite Et in Hr. injection Hr as <-.
           apply Exists_exists in Hex as (r & Hin & Hv).
           rewrite (clean_table_bad_value t region_name r Hw Hin Hv) in Ec. discriminate.
      * split; [|reflexivity]. intros _. exists f, e.
        split; [reflexivity|]. split; [exact He|]. right. exists t.
        split; [exact Et|]. unfold clean_table in Ec.
        destruct (3 <=? width t)%nat eqn:Ew; [|discriminate].
        split; [apply Nat.leb_le; exact Ew|].
        unfold bind in Ec.
        destruct (mapM clean_row (cells t)) as [c|] eqn:Em; [discriminate|].
        apply mapM_None_Exists in Em. revert Em. apply Exists_impl.
        intros r Hr. unfold clean_row, bind, Cell in *.
        destruct (clean_value (nth 1 r None)); [discriminate | reflexivity].
    + split; [|reflexivity]. intros _. exists f, e. auto.
  - split; [discriminate|]. intros (f & e & Hf & _). discriminate.
Qed.

(** ** The text of a value *)

Lemma replace_comma_quote (s : string) :
  replace "," "." (replace dquote "" (replace "," "." s))
  = replace "," "." (replace dquote "" s).
Proof.
  induction s as [|c s IH]; [reflexivity|].
  cbn [replace].
  destruct (Ascii.eqb c ",") eqn:Ec.
  - apply Ascii.eqb_eq in Ec. subst c.
    change (Ascii.eqb "," dquote) with false. cbn [replace append].
    change (Ascii.eqb "." dquote) with false. cbn [replace append].
    change (Ascii.eqb "." ",") with false.
    change (Ascii.eqb "," ",") with true. cbn [append]. rewrite IH. reflexivity.
  - cbn [replace]. destruct (Ascii.eqb c dquote) eqn:Eq.
    + cbn [append]. exact IH.
    + cbn [replace]. rewrite Ec, IH. reflexivity.
Qed.

Lemma replace_quote_twice (s : string) :
  replace dquote "" (replace dquote "" s) = replace dquote "" s.
Proof.
  induction s as [|c s IH]; [reflexivity|].
  cbn [replace]. destruct (Ascii.eqb c dquote) eqn:Eq; cbn [append].
  - exact IH.
  - cbn [replace]. rewrite Eq, IH. reflexivity.
Qed.

(** X12.  The conversion of a value reads a decimal point like a
    decimal comma and ignores double quotes wherever they stand: turning
    every comma of the text into a point, or removing its quotes
    beforehand, changes neither the float obtained nor whether the
    conversion raises. *)
Theorem X12_value_text_insensitive (s : string) :
  clean_value (Some (replace "," "." s)) = clean_value (Some s)
  /\ clean_value (Some (replace dquote "" s)) = clean_value (Some s).
Proof.
  unfold clean_value. cbn [astype_str]. split.
  - rewrite replace_comma_quote. reflexivity.
  - rewrite replace_quote_twice. reflexivity.
Qed.

(** ** How [main] starts *)

Lemma process_data_None (d : option DataFrame) :
  process_data d = None <-> d = None \/ exists df, d = Some df /\ len df = 0%nat.
Proof.
  unfold process_data, empty. destruct d as [df|].
  - destruct (len df =? 0)%nat eqn:E.
    + apply Nat.eqb_eq in E. split; [|reflexivity]. intros _. right. eauto.
    + apply Nat.eqb_neq in E. split; [discriminate|].
      intros [H|(df' & H & H0)]; [discriminate|]. injection H as <-. contradiction.
  - split; auto.
Qed.

(** X13.  [main] stops on "Failed to load data from all sources"
    exactly when none of the three tables was loaded.  It stops on "No
    data available to display" exactly when a table was loaded but
    neither Marne nor France has a table with at least one row: the
    hotel counts of Grand Est alone are never shown.  Otherwise the
    regions offered are Marne and France, in that order, each exactly
    when its table has a row. *)
Theorem X13_main_start (marne_data france_data grand_est_hotels_data : option DataFrame) :
  (main_start marne_data france_data grand_est_hotels_data = FailedAll <->
     marne_data = None /\ france_data = None /\ grand_est_hotels_data = None)
  /\ (main_start marne_data france_data grand_est_hotels_data = NoData <->
        ~ (marne_data = None /\ france_data = None /\ grand_est_hotels_data = None)
        /\ (marne_data = None \/ exists df, marne_data = Some df /\ len df = 0%nat)
        /\ (france_data = None \/ exists df, france_data = Some df /\ len df = 0%nat))
  /\ (forall sources mp fp gp,
        main_start marne_data france_data grand_est_hotels_data = Sources sources mp fp gp ->
        mp = process_data marne_data /\ fp = process_data france_data
        /\ gp = process_data grand_est_hotels_data
        /\ sources = (if is_none mp then [] else ["Marne"])
                     ++ (if is_none fp then [] else ["France"])
        /\ sources <> []).
Proof.
  assert (Hp : forall d : option DataFrame,
            (if is_none d then None else process_data d) = process_data d).
  { intros [df|]; reflexivity. }
  unfold main_start. rewrite !Hp.
  rewrite <- (process_data_None marne_data), <- (process_data_None france_data).
  destruct marne_data as [m|], france_data as [f|], grand_est_hotels_data as [g|];
    cbn [is_none andb];
    destruct (process_data (Some m)) as [mp'|] eqn:Em || idtac;
    destruct (process_data (Some f)) as [fp'|] eqn:Ef || idtac;
    cbn [is_none app process_data];
    (split; [|split]);
    try (split; [discriminate | intros (H1 & H2 & H3); discriminate]);
    try (split; [discriminate | intros (_ & H2 & H3); discriminate]);
    try (split; [discriminate | intros (H1 & _); exfalso; apply H1; auto]);
    try (split; [intros _; repeat split; try reflexivity;
                 intros (H1 & H2 & H3); discriminate | reflexivity]);
    try (split; [reflexivity | auto]);
    try (intros s mp fp gp H; try discriminate; injection H as <- <- <- <-;
         repeat split; discriminate).
Qed.

(** ** The charts *)

Lemma load_frame_shape (response : option (list ZipEntry)) (region_name : string)
    (df : DataFrame) :
  load_insee_data response region_name = Loaded df ->
  (exists t, df = RawFrame t region_name /\ (width t < 3)%nat)
  \/ (exists rows,
        df = CleanFrame (if contains "Hotels" region_name
                         then "Hotel_Count" else "Occupancy_Rate") rows region_name
        /\ StronglySorted by_date rows).
Proof.
  intros H. destruct (load_Loaded _ _ _ H) as (zip & f & e & t & _ & _ & _ & _ & Hc).
  destruct (Nat.lt_ge_cases (width t) 3) as [Hw|Hw].
  - left. exists t. split; [|exact Hw]. unfold clean_table in Hc.
    apply Nat.leb_gt in Hw. rewrite Hw in Hc. congruence.
  - right. destruct (clean_table_wide _ _ _ Hw Hc) as (cleaned & _ & ->).
    eexists. split; [reflexivity|]. apply sort_values_sorted.
Qed.

(** X14.  With Marne and France both loaded and both selected, the
    chart of Marne raises a [KeyError] that nothing catches exactly when
    the table of Marne is a cleaned table with a row while the table of
    France has a row but fewer than three columns, hence no
    [Occupancy_Rate] column. *)
Theorem X14_chart_raises_on_narrow_sibling (response_m response_f : option (list ZipEntry))
    (df odf : DataFrame) (selected_regions : list string) :
  load_insee_data response_m "Marne" = Loaded df ->
  load_insee_data response_f "France" = Loaded odf ->
  selected "Marne" selected_regions = true ->
  selected "France" selected_regions = true ->
  (region_chart "Marne" "France" selected_regions
     (process_data (Some df)) (process_data (Some odf)) = None
   <-> (exists rows region, df = CleanFrame "Occupancy_Rate" rows region /\ rows <> [])
       /\ (exists t region, odf = RawFrame t region /\ (width t < 3)%nat
                            /\ cells t <> [])).
Proof.
  intros Hm Hf Hsm Hsf.
  apply load_frame_shape in Hm, Hf. cbn [contains] in Hm, Hf.
  change (contains "Hotels" "Marne") with false in Hm.
  change (contains "Hotels" "France") with false in Hf.
  unfold region_chart, process_data, empty.
  destruct Hm as [(t & -> & Hw)|(rows & -> & _)].
  - cbn [len]. split.
    + destruct (List.length (cells t) =? 0)%nat; [discriminate|].
      rewrite Hsm. cbn [has_columns]. discriminate.
    + intros [(rows & region & H & _) _]. discriminate.
  - cbn [len]. destruct rows as [|r rows].
    + cbn. split; [discriminate|]. intros [(rows' & region & H & Hne) _].
      injection H as <- _. contradiction.
    + cbn [List.length Nat.eqb]. rewrite Hsm. cbn [has_columns column].
      change (String.eqb "Occupancy_Rate" "Occupancy_Rate") with true.
      cbn [bind].
      destruct Hf as [(t & -> & Hw)|(orows & -> & _)].
      * cbn [len]. destruct (cells t) as [|c cs] eqn:Ec.
        -- cbn. split; [discriminate|].
           intros [_ (t' & region & H & _ & Hne)]. injection H as <- _.
           rewrite Ec in Hne. contradiction.
        -- cbn [List.length Nat.eqb]. rewrite Hsf. cbn [column bind].
           split; [|reflexivity]. intros _. split.
           ++ exists (r :: rows), "Marne". split; [reflexivity | discriminate].
           ++ exists t, "France". rewrite Ec. repeat split; [exact Hw | discriminate].
      * cbn [len]. split.
        -- destruct (List.length orows =? 0)%nat; [discriminate|].
           rewrite Hsf. cbn [column].
           change (String.eqb "Occupancy_Rate" "Occupancy_Rate") with true.
           discriminate.
        -- intros [_ (t' & region & H & _)]. discriminate.
Qed.

Lemma X14_chart_raises_on_narrow_sibling_witness :
  region_chart "Marne" "France" ["Marne"; "France"]
    (process_data (Some (CleanFrame "Occupancy_Rate"
                           [mkRow (month_index 2020 1) (Finite (3 # 2)) "A" []] "Marne")))
    (process_data (Some (RawFrame narrow_rows "France"))) = None
  <-> (exists rows region,
         CleanFrame "Occupancy_Rate"
           [mkRow (month_index 2020 1) (Finite (3 # 2)) "A" []] "Marne"
         = CleanFrame "Occupancy_Rate" rows region /\ rows <> [])
      /\ (exists t region, RawFrame narrow_rows "France" = RawFrame t region
                           /\ (width t < 3)%nat /\ cells t <> []).
Proof.
  apply (X14_chart_raises_on_narrow_sibling
           (Some [mkZipEntry "valeurs_mensuelles.csv"
                    (Some (mkRawTable 3 [cell_row "2020-01" "1,5" "A"]))])
           (Some [mkZipEntry "valeurs_mensuelles.csv" (Some narrow_rows)])).
  - reflexivity.
  - reflexivity.
  - reflexivity.
  - reflexivity.
Defined.

Lemma skipna_finite (qs : list Q) : skipna (map Finite qs) = map Finite qs.
Proof.
  induction qs as [|q qs IH]; [reflexivity|]. simpl. rewrite IH. reflexivity.
Qed.

Lemma fold_py_min_finite (qs : list Q) (q0 : Q) :
  exists m, fold_left py_min (map Finite qs) (Finite q0) = Finite m
            /\ In m (q0 :: qs) /\ forall q, In q (q0 :: qs) -> m <= q.
Proof.
  revert q0. induction qs as [|x qs IH]; intros q0.
  - exists q0. split; [reflexivity|]. split; [left; reflexivity|].
    intros q [<-|[]]. apply Qle_refl.
  - cbn [map fold_left]. unfold py_min at 2. cbn [lt].
    destruct (Qle_bool q0 x) eqn:E; cbn [negb].
    + apply Qle_bool_iff in E.
      destruct (IH q0) as (m & Hm & Hin & Hle). exists m. split; [exact Hm|]. split.
      * destruct Hin as [<-|Hin]; [left; reflexivity | right; right; exact Hin].
      * intros q [<-|[<-|Hq]].
        -- apply Hle. left. reflexivity.
        -- apply Qle_trans with q0; [apply Hle; left; reflexivity | exact E].
        -- apply Hle. right. exact Hq.
    + assert (Hlt : x < q0).
      { apply Qnot_le_lt. intros H. apply Qle_bool_iff in H. congruence. }
      destruct (IH x) as (m & Hm & Hin & Hle). exists m. split; [exact Hm|]. split.
      * right. exact Hin.
      * intros q [<-|[<-|Hq]].
        -- apply Qle_trans with x; [apply Hle; left; reflexivity | apply Qlt_le_weak; exact Hlt].
        -- apply Hle. left. reflexivity.
        -- apply Hle. right. exact Hq.
Qed.

Lemma fold_py_max_finite (qs : list Q) (q0 : Q) :
  exists m, fold_left py_max (map Finite qs) (Finite q0) = Finite m
            /\ In m (q0 :: qs) /\ forall q, In q (q0 :: qs) -> q <= m.
Proof.
  revert q0. induction qs as [|x qs IH]; intros q0.
  - exists q0. split; [reflexivity|]. split; [left; reflexivity|].
    intros q [<-|[]]. apply Qle_refl.
  - cbn [map fold_left]. unfold py_max at 2. cbn [lt].
    destruct (Qle_bool x q0) eqn:E; cbn [negb].
    + apply Qle_bool_iff in E.
      destruct (IH q0) as (m & Hm & Hin & Hle). exists m. split; [exact Hm|]. split.
      * destruct Hin as [<-|Hin]; [left; reflexivity | right; right; exact Hin].
      * intros q [<-|[<-|Hq]].
        -- apply Hle. left. reflexivity.
        -- apply Qle_trans with q0; [exact E | apply Hle; left; reflexivity].
        -- apply Hle. right. exact Hq.
    + assert (Hlt : q0 < x).
      { apply Qnot_le_lt. intros H. apply Qle_bool_iff in H. congruence. }
      destruct (IH x) as (m & Hm & Hin & Hle). exists m. split; [exact Hm|]. split.
      * right. exact Hin.
      * intros q [<-|[<-|Hq]].
        -- apply Qle_trans with x; [apply Qlt_le_weak; exact Hlt | apply Hle; left; reflexivity].
        -- apply Hle. left. reflexivity.
        -- apply Hle. right. exact Hq.
Qed.

Lemma column_min_finite (qs : list Q) :
  qs <> [] ->
  exists m, column_min (map Finite qs) = Finite m
            /\ In m qs /\ forall q, In q qs -> m <= q.
Proof.
  intros H. unfold column_min. rewrite skipna_finite.
  destruct qs as [|q0 qs]; [contradiction|]. apply fold_py_min_finite.
Qed.

Lemma column_max_finite (qs : list Q) :
  qs <> [] ->
  exists m, column_max (map Finite qs) = Finite m
            /\ In m qs /\ forall q, In q qs -> q <= m.
Proof.
  intros H. unfold column_max. rewrite skipna_finite.
  destruct qs as [|q0 qs]; [contradiction|]. apply fold_py_max_finite.
Qed.

Lemma fold_add_finite (qs : list Q) (q0 : Q) :
  exists a, fold_left add (map Finite qs) (Finite q0) = Finite a /\ a == q0 + Qsum qs.
Proof.
  revert q0. induction qs as [|x qs IH]; intros q0.
  - exists q0. split; [reflexivity|]. simpl. ring.
  - cbn [map fold_left add]. destruct (IH (q0 + x)) as (a & Ha & E).
    exists a. split; [exact Ha|]. rewrite E. simpl. ring.
Qed.

(** X15.  When both regions are selected and their tables hold finite
    values only, the chart of a region is drawn with the mean of its own
    values as average line, and its vertical range runs from 2 below the
    smallest to 2 above the largest value of the two regions together:
    every point of both regions lies inside the range, at least 2 from
    either end. *)
Theorem X15_shared_range_covers (own other : string) (selected_regions : list string)
    (rows orows : list Row) (region oregion : string) (qs oqs : list Q) :
  selected own selected_regions = true ->
  selected other selected_regions = true ->
  map Value rows = map Finite qs ->
  map Value orows = map Finite oqs ->
  qs <> [] -> oqs <> [] ->
  exists avg lo hi,
    region_chart own other selected_regions
      (process_data (Some (CleanFrame "Occupancy_Rate" rows region)))
      (process_data (Some (CleanFrame "Occupancy_Rate" orows oregion)))
    = Some (Line (Finite avg) (Some (Finite (lo + - (2)), Finite (hi + 2))))
    /\ avg == Qsum qs / inject_Z (Z.of_nat (List.length qs))
    /\ In lo (qs ++ oqs) /\ In hi (qs ++ oqs)
    /\ forall q, In q (qs ++ oqs) -> lo <= q <= hi.
Proof.
  intros Hs Hso Hv Hov Hne Hone.
  assert (Hl : List.length rows = List.length qs)
    by (rewrite <- (length_map Value), Hv, length_map; reflexivity).
  assert (Hol : List.length orows = List.length oqs)
    by (rewrite <- (length_map Value), Hov, length_map; reflexivity).
  destruct (column_min_finite qs Hne) as (m1 & Em1 & Hin1 & Hle1).
  destruct (column_min_finite oqs Hone) as (m2 & Em2 & Hin2 & Hle2).
  destruct (column_max_finite qs Hne) as (M1 & EM1 & HIn1 & HLe1).
  destruct (column_max_finite oqs Hone) as (M2 & EM2 & HIn2 & HLe2).
  assert (Eavg : exists a, column_mean (map Finite qs) = Finite a
                           /\ a == Qsum qs / inject_Z (Z.of_nat (List.length qs))).
  { unfold column_mean. rewrite skipna_finite.
    destruct qs as [|q0 qs']; [contradiction|]. cbn [map].
    destruct (fold_add_finite qs' q0) as (a & Ha & E). rewrite Ha.
    cbn [div_count]. eexists. split; [reflexivity|].
    rewrite length_map. rewrite E. reflexivity. }
  destruct Eavg as (a & Ea & Eaq).
  unfold region_chart, process_data, empty. cbn [len].
  replace (List.length rows =? 0)%nat with false
    by (symmetry; apply Nat.eqb_neq; rewrite Hl; destruct qs; [contradiction | discriminate]).
  replace (List.length orows =? 0)%nat with false
    by (symmetry; apply Nat.eqb_neq; rewrite Hol; destruct oqs; [contradiction | discriminate]).
  rewrite Hs, Hso. cbn [has_columns column].
  change (String.eqb "Occupancy_Rate" "Occupancy_Rate") with true. cbn [bind].
  rewrite Hv, Hov, Ea, Em1, Em2, EM1, EM2.
  unfold py_min, py_max. cbn [lt].
  exists a,
    (if negb (Qle_bool m1 m2) then m2 else m1),
    (if negb (Qle_bool M2 M1) then M2 else M1).
  split.
  { destruct (Qle_bool m1 m2), (Qle_bool M2 M1); reflexivity. }
  split; [exact Eaq|].
  assert (Hmin : (if negb (Qle_bool m1 m2) then m2 else m1) <= m1
                 /\ (if negb (Qle_bool m1 m2) then m2 else m1) <= m2).
  { destruct (Qle_bool m1 m2) eqn:E; cbn [negb].
    - apply Qle_bool_iff in E. split; [apply Qle_refl | exact E].
    - split; [|apply Qle_refl]. apply Qlt_le_weak, Qnot_le_lt.
      intros H. apply Qle_bool_iff in H. congruence. }
  assert (Hmax : M1 <= (if negb (Qle_bool M2 M1) then M2 else M1)
                 /\ M2 <= (if negb (Qle_bool M2 M1) then M2 else M1)).
  { destruct (Qle_bool M2 M1) eqn:E; cbn [negb].
    - apply Qle_bool_iff in E. split; [apply Qle_refl | exact E].
    - split; [|apply Qle_refl]. apply Qlt_le_weak, Qnot_le_lt.
      intros H. apply Qle_bool_iff in H. congruence. }
  split; [|split].
  - destruct (Qle_bool m1 m2); cbn [negb]; apply in_or_app; auto.
  - destruct (Qle_bool M2 M1); cbn [negb]; apply in_or_app; auto.
  - intros q Hq. apply in_app_or in Hq as [Hq|Hq]; split.
    + apply Qle_trans with m1; [tauto | auto].
    + apply Qle_trans with M1; [auto | tauto].
    + apply Qle_trans with m2; [tauto | auto].
    + apply Qle_trans with M2; [auto | tauto].
Qed.

Lemma X15_shared_range_covers_witness :
  exists avg lo hi,
    region_chart "Marne" "France" ["Marne"; "France"]
      (process_data (Some (CleanFrame "Occupancy_Rate"
                             [mkRow (month_index 2020 1) (Finite 40) "A" [];
                              mkRow (month_index 2020 2) (Finite 60) "A" []] "Marne")))
      (process_data (Some (CleanFrame "Occupancy_Rate"
                             [mkRow (month_index 2020 1) (Finite 55) "A" []] "France")))
    = Some (Line (Finite avg) (Some (Finite (lo + - (2)), Finite (hi + 2))))
    /\ avg == Qsum [40; 60] / inject_Z (Z.of_nat (List.length [40; 60]))
    /\ In lo ([40; 60] ++ [55]) /\ In hi ([40; 60] ++ [55])
    /\ forall q, In q ([40; 60] ++ [55]) -> lo <= q <= hi.
Proof.
  apply (X15_shared_range_covers "Marne" "France" ["Marne"; "France"]
           [mkRow (month_index 2020 1) (Finite 40) "A" [];
            mkRow (month_index 2020 2) (Finite 60) "A" []]
           [mkRow (month_index 2020 1) (Finite 55) "A" []]
           "Marne" "France" [40; 60] [55]).
  - reflexivity.
  - reflexivity.
  - reflexivity.
  - reflexivity.
  - discriminate.
  - discriminate.
Defined.

Lemma sorted_head_last (r : Row) (rows : list Row) :
  StronglySorted by_date (r :: rows) ->
  forall x, In x (r :: rows) ->
            (Date r <= Date x <= Date (last (r :: rows) r))%Z.
Proof.
  revert r. induction rows as [|y rows IH]; intros r Hs x Hx.
  - destruct Hx as [<-|[]]. simpl. lia.
  - inversion Hs as [|? ? Hs' Hall]; subst.
    assert (Hry : (Date r <= Date y)%Z).
    { rewrite Forall_forall in Hall. apply (Hall y). left. reflexivity. }
    assert (Hlast : last (r :: y :: rows) r = last (y :: rows) y).
    { change (last (r :: y :: rows) r) with (last (y :: rows) r).
      clear. revert y. induction rows as [|z rows IH]; intros y; [reflexivity|].
      change (last (y :: z :: rows) r) with (last (z :: rows) r).
      change (last (y :: z :: rows) y) with (last (z :: rows) y).
      rewrite (IH z). destruct rows; [reflexivity|].
      clear. revert z. generalize r0. induction rows as [|w rows IH]; intros a z;
        [reflexivity|].
      change (last (z :: a :: w :: rows) z) with (last (a :: w :: rows) z).
      change (last (z :: a :: w :: rows) y) with (last (a :: w :: rows) y).
      change (last (a :: w :: rows) z) with (last (w :: rows) z).
      change (last (a :: w :: rows) y) with (last (w :: rows) y).
      specialize (IH w z).
      change (last (z :: w :: rows) z) with (last (w :: rows) z) in IH.
      change (last (z :: w :: rows) y) with (last (w :: rows) y) in IH.
      exact IH. }
    rewrite Hlast. destruct Hx as [<-|Hx].
    + specialize (IH y Hs' y (or_introl eq_refl)). lia.
    + specialize (IH y Hs' x Hx). lia.
Qed.

Lemma last_map_Value (rows : list Row) (r : Row) :
  last (map Value rows) (Value r) = Value (last rows r).
Proof.
  induction rows as [|x rows IH]; [reflexivity|].
  destruct rows as [|y rows]; [reflexivity|].
  change (last (map Value (x :: y :: rows)) (Value r))
    with (last (map Value (y :: rows)) (Value r)).
  change (last (x :: y :: rows) r) with (last (y :: rows) r). exact IH.
Qed.

(** X16.  On a table of hotel counts that [load_insee_data] returned
    with at least one row, the direction shown never raises and compares
    the value of the first row, an observation of the earliest month,
    with the value of the last row, an observation of the latest month. *)
Theorem X16_trend_compares_ends (response : option (list ZipEntry))
    (value_col region : string) (rows : list Row) :
  load_insee_data response "Grand Est Hotels" = Loaded (CleanFrame value_col rows region) ->
  rows <> [] ->
  exists first final,
    hd_error rows = Some first
    /\ final = last rows first
    /\ In final rows
    /\ (forall r, In r rows -> (Date first <= Date r <= Date final)%Z)
    /\ column (CleanFrame value_col rows region) "Hotel_Count" = Some (map Value rows)
    /\ trend_of_counts (map Value rows)
       = Some (if lt (Value first) (Value final) then Increasing
               else if lt (Value final) (Value first) then Decreasing
               else Stable).
Proof.
  intros H Hne. apply load_frame_shape in H.
  change (contains "Hotels" "Grand Est Hotels") with true in H.
  destruct H as [(t & H & _)|(rows' & H & Hs)]; [discriminate|].
  injection H as -> -> ->.
  destruct rows' as [|first rows]; [contradiction|].
  exists first, (last (first :: rows) first).
  split; [reflexivity|]. split; [reflexivity|]. split; [|split; [|split]].
  - clear. generalize first at 1 3. induction rows as [|y rows IH]; intros a.
    + left. reflexivity.
    + change (last (a :: y :: rows) first) with (last (y :: rows) first).
      right. apply (IH y).
  - intros r Hr. exact (sorted_head_last first rows Hs r Hr).
  - reflexivity.
  - cbn [map trend_of_counts].
    change (Value first :: map Value rows) with (map Value (first :: rows)).
    rewrite last_map_Value. reflexivity.
Qed.

Lemma X16_trend_compares_ends_witness :
  exists first final,
    hd_error [mkRow (month_index 2020 1) (Finite 3120) "A" [];
              mkRow (month_index 2020 2) (Finite 3100) "A" []] = Some first
    /\ final = last [mkRow (month_index 2020 1) (Finite 3120) "A" [];
                     mkRow (month_index 2020 2) (Finite 3100) "A" []] first
    /\ In final [mkRow (month_index 2020 1) (Finite 3120) "A" [];
                 mkRow (month_index 2020 2) (Finite 3100) "A" []]
    /\ (forall r, In r [mkRow (month_index 2020 1) (Finite 3120) "A" [];
                        mkRow (month_index 2020 2) (Finite 3100) "A" []] ->
                  (Date first <= Date r <= Date final)%Z)
    /\ column (CleanFrame "Hotel_Count"
                 [mkRow (month_index 2020 1) (Finite 3120) "A" [];
                  mkRow (month_index 2020 2) (Finite 3100) "A" []] "Grand Est Hotels")
              "Hotel_Count"
       = Some (map Value [mkRow (month_index 2020 1) (Finite 3120) "A" [];
                          mkRow (month_index 2020 2) (Finite 3100) "A" []])
    /\ trend_of_counts (map Value [mkRow (month_index 2020 1) (Finite 3120) "A" [];
                                   mkRow (month_index 2020 2) (Finite 3100) "A" []])
       = Some (if lt (Value first) (Value final) then Increasing
               else if lt (Value final) (Value first) then Decreasing
               else Stable).
Proof.
  apply (X16_trend_compares_ends
           (Some [mkZipEntry "valeurs_mensuelles.csv"
                    (Some (mkRawTable 3 [cell_row "2020-02" "3100" "A";
                                         cell_row "2020-01" "3120" "A"]))])).
  - vm_compute. reflexivity.
  - discriminate.
Defined.

(** ** The quiz: times *)

Lemma Qfloor_unique (x : Q) (z : Z) :
  inject_Z z <= x -> x < inject_Z (z + 1) -> Qfloor x = z.
Proof.
  intros H1 H2. pose proof (Qfloor_le x) as H3. pose proof (Qlt_floor x) as H4.
  assert (A : inject_Z z < inject_Z (Qfloor x + 1)) by (eapply Qle_lt_trans; eauto).
  assert (B : inject_Z (Qfloor x) < inject_Z (z + 1)) by (eapply Qle_lt_trans; eauto).
  rewrite <- Zlt_Qlt in A, B. lia.
Qed.

Lemma time_fields (seconds : Q) :
  (60 * mins_of seconds + secs_of seconds = Qfloor seconds)%Z
  /\ (0 <= secs_of seconds < 60)%Z.
Proof.
  unfold secs_of, mins_of. set (m := Qfloor (seconds / 60)).
  assert (Ey : seconds == seconds / 60 * 60) by field.
  pose proof (Qfloor_le (seconds / 60)) as Hy1.
  pose proof (Qlt_floor (seconds / 60)) as Hy2. fold m in Hy1, Hy2.
  rewrite inject_Z_plus in Hy2. change (inject_Z 1) with 1 in Hy2.
  assert (Hm1 : inject_Z m * 60 <= seconds) by lra.
  assert (Hm2 : seconds < (inject_Z m + 1) * 60) by lra.
  clear Ey Hy1 Hy2.
  pose proof (Qfloor_le seconds) as Hf1. pose proof (Qlt_floor seconds) as Hf2.
  rewrite inject_Z_plus in Hf2. change (inject_Z 1) with 1 in Hf2.
  assert (E : Qfloor (seconds - 60 * inject_Z m) = (Qfloor seconds - 60 * m)%Z).
  { apply Qfloor_unique.
    - unfold Zminus. rewrite inject_Z_plus, inject_Z_opp, inject_Z_mult.
      change (inject_Z 60) with 60. lra.
    - replace (Qfloor seconds - 60 * m + 1)%Z with ((Qfloor seconds + 1) + - (60 * m))%Z
        by lia.
      rewrite !inject_Z_plus, inject_Z_opp, inject_Z_mult.
      change (inject_Z 60) with 60. change (inject_Z 1) with 1. lra. }
  rewrite E. split; [lia|].
  assert (A : inject_Z (60 * m) < inject_Z (Qfloor seconds + 1)).
  { rewrite inject_Z_mult, inject_Z_plus. change (inject_Z 60) with 60.
    change (inject_Z 1) with 1. lra. }
  assert (B : inject_Z (Qfloor seconds) < inject_Z (60 * (m + 1))).
  { rewrite inject_Z_mult, inject_Z_plus. change (inject_Z 60) with 60.
    change (inject_Z 1) with 1. lra. }
  rewrite <- Zlt_Qlt in A, B. lia.
Qed.

Lemma length_of_append (a b : string) :
  String.length (a ++ b)%string = (String.length a + String.length b)%nat.
Proof.
  induction a as [|c a IH]; cbn [append String.length Nat.add]; congruence.
Qed.

Lemma pad2_length (n : Z) : (0 <= n < 100)%Z -> String.length (pad2 n) = 2%nat.
Proof.
  intros H.
  assert (Hall : forall k, (k < 100)%nat -> String.length (pad2 (Z.of_nat k)) = 2%nat).
  { intros k Hk. do 100 (destruct k as [|k]; [reflexivity|]). lia. }
  replace n with (Z.of_nat (Z.to_nat n)) by lia. apply Hall. lia.
Qed.

(** X17.  For a time that is not negative, [format_time] writes whole
    minutes and seconds separated by a colon: the seconds lie between 0
    and 59, the minutes are not capped at 59 (no hours are split off),
    and 60 times the minutes plus the seconds is the time rounded down.
    Below 100 minutes the text has exactly five characters. *)
Theorem X17_format_time (seconds : Q) :
  0 <= seconds ->
  format_time seconds = (pad2 (mins_of seconds) ++ ":" ++ pad2 (secs_of seconds))%string
  /\ (0 <= mins_of seconds)%Z
  /\ (0 <= secs_of seconds < 60)%Z
  /\ (60 * mins_of seconds + secs_of seconds = Qfloor seconds)%Z
  /\ (seconds < 6000 -> String.length (format_time seconds) = 5%nat).
Proof.
  intros H0. destruct (time_fields seconds) as [Hsum Hsecs].
  assert (Hm : (0 <= mins_of seconds)%Z).
  { unfold mins_of. change 0%Z with (Qfloor 0). apply Qfloor_resp_le.
    assert (Ey : seconds == seconds / 60 * 60) by field. lra. }
  split; [reflexivity|]. split; [exact Hm|]. split; [exact Hsecs|].
  split; [exact Hsum|].
  intros H6. unfold format_time. rewrite !length_of_append.
  assert (Hf : (Qfloor seconds < 6000)%Z).
  { pose proof (Qfloor_le seconds) as Hf.
    assert (A : inject_Z (Qfloor seconds) < inject_Z 6000).
    { eapply Qle_lt_trans; [exact Hf | exact H6]. }
    rewrite <- Zlt_Qlt in A. exact A. }
  rewrite !pad2_length by lia. reflexivity.
Qed.

Lemma X17_format_time_witness :
  format_time (7325 # 2)
    = (pad2 (mins_of (7325 # 2)) ++ ":" ++ pad2 (secs_of (7325 # 2)))%string
  /\ (0 <= mins_of (7325 # 2))%Z
  /\ (0 <= secs_of (7325 # 2) < 60)%Z
  /\ (60 * mins_of (7325 # 2) + secs_of (7325 # 2) = Qfloor (7325 # 2))%Z
  /\ (7325 # 2 < 6000 -> String.length (format_time (7325 # 2)) = 5%nat).
Proof.
  apply (X17_format_time (7325 # 2)). unfold Qle. simpl. lia.
Defined.

(** ** The quiz: answers *)

Lemma count_correct_bound (exam_id : string) (questions : list Z) (answers : list string)
    (user_answers : Dict string) (n : nat) :
  count_correct exam_id questions answers user_answers = Some n ->
  (n <= List.length (filter (fun q => has_key user_answers (key exam_id q)) questions))%nat.
Proof.
  revert answers n. induction questions as [|q qs IH]; intros answers n H.
  - injection H as <-. apply Nat.le_refl.
  - destruct answers as [|a rest]; [discriminate|].
    cbn [count_correct] in H. unfold bind in H.
    destruct (count_correct exam_id qs rest user_answers) as [m|] eqn:E; [|discriminate].
    specialize (IH rest m E). injection H as <-.
    cbn [filter]. unfold has_key at 1.
    destruct (get user_answers (key exam_id q)) as [ua|].
    + cbn [List.length]. destruct (String.eqb ua a); lia.
    + exact IH.
Qed.

Lemma count_correct_raises (exam_id : string) (questions : list Z) (answers : list string)
    (user_answers : Dict string) :
  count_correct exam_id questions answers user_answers = None
  <-> (List.length answers < List.length questions)%nat.
Proof.
  revert answers. induction questions as [|q qs IH]; intros answers.
  - simpl. split; [discriminate | lia].
  - destruct answers as [|a rest].
    + simpl. split; [lia | reflexivity].
    + cbn [count_correct List.length]. unfold bind.
      destruct (count_correct exam_id qs rest user_answers) as [m|] eqn:E.
      * split; [discriminate|]. intros H.
        assert (Hl : (List.length rest < List.length qs)%nat) by lia.
        apply IH in Hl. congruence.
      * split; [|reflexivity]. intros _. apply IH in E. lia.
Qed.

(** X18.  The statistics of a section raise an [IndexError] exactly
    when the section has fewer answers than questions.  Otherwise the
    number of correct answers never exceeds the number of answered
    questions, which never exceeds the number of questions, so the
    number of wrong answers is not negative. *)
Theorem X18_statistics_bounds (exam_id : string) (questions : list Z)
    (answers : list string) (user_answers : Dict string) :
  (statistics exam_id questions answers user_answers = None
   <-> (List.length answers < List.length questions)%nat)
  /\ (forall st, statistics exam_id questions answers user_answers = Some st ->
        (correct_count st <= answered st <= List.length questions)%nat
        /\ (0 <= wrong_count st)%Z
        /\ wrong_count st = (Z.of_nat (answered st) - Z.of_nat (correct_count st))%Z).
Proof.
  unfold statistics, bind. split.
  - rewrite <- (count_correct_raises exam_id questions answers user_answers).
    destruct (count_correct exam_id questions answers user_answers);
      split; congruence.
  - intros st H.
    destruct (count_correct exam_id questions answers user_answers) as [n|] eqn:E;
      [|discriminate].
    injection H as <-. cbn [correct_count answered wrong_count].
    pose proof (count_correct_bound _ _ _ _ _ E) as Hb.
    pose proof (filter_length_le (fun q => has_key user_answers (key exam_id q)) questions)
      as Hf.
    repeat split; lia.
Qed.

Lemma session_results_shape (exam_id : string) (questions : list Z) (answers : list string)
    (user_answers : Dict string) (question_times : Dict Q) (rs : list Result) :
  session_results exam_id questions answers user_answers question_times = Some rs ->
  map question rs = questions
  /\ Forall (fun r => (is_correct r = None <-> user_answer r = "")
                      /\ (is_correct r = Some true ->
                          user_answer r = correct_answer r /\ user_answer r <> "")) rs.
Proof.
  revert answers rs. induction questions as [|q qs IH]; intros answers rs H.
  - injection H as <-. split; [reflexivity | constructor].
  - destruct answers as [|a rest]; [discriminate|].
    cbn [session_results] in H. unfold bind in H.
    destruct (session_results exam_id qs rest user_answers question_times) as [rs'|] eqn:E;
      [|discriminate].
    injection H as <-. destruct (IH rest rs' E) as [Hq Hall]. split.
    + cbn [map question]. rewrite Hq. reflexivity.
    + constructor; [|exact Hall]. cbn [is_correct user_answer correct_answer].
      set (ua := match get user_answers (key exam_id q) with
                 | Some a0 => a0
                 | None => ""
                 end).
      destruct (String.eqb ua "") eqn:Ee.
      * apply String.eqb_eq in Ee. split; [tauto | discriminate].
      * apply String.eqb_neq in Ee. split; [split; [discriminate | contradiction]|].
        intros H. injection H as H. apply String.eqb_eq in H. auto.
Qed.

(** X19.  Saving a session raises an [IndexError] exactly when the
    section has fewer answers than questions.  Otherwise the log gets
    one result for each question, in their order; a result is marked
    neither right nor wrong exactly when its answer is empty; and the
    results counted as correct by the history are among those counted
    as attempted, so the accuracy shown never exceeds 100%. *)
Theorem X19_session_results (exam_id : string) (questions : list Z)
    (answers : list string) (user_answers : Dict string) (question_times : Dict Q) :
  (session_results exam_id questions answers user_answers question_times = None
   <-> (List.length answers < List.length questions)%nat)
  /\ (forall rs,
        session_results exam_id questions answers user_answers question_times = Some rs ->
        map question rs = questions
        /\ Forall (fun r => is_correct r = None <-> user_answer r = "") rs
        /\ (correct rs <= attempted rs <= List.length questions)%nat).
Proof.
  split.
  - revert answers. induction questions as [|q qs IH]; intros answers.
    + simpl. split; [discriminate | lia].
    + destruct answers as [|a rest].
      * simpl. split; [lia | reflexivity].
      * cbn [session_results List.length]. unfold bind.
        destruct (session_results exam_id qs rest user_answers question_times)
          as [m|] eqn:E.
        -- split; [discriminate|]. intros H.
           assert (Hl : (List.length rest < List.length qs)%nat) by lia.
           apply IH in Hl. congruence.
        -- split; [|reflexivity]. intros _. apply IH in E. lia.
  - intros rs H. destruct (session_results_shape _ _ _ _ _ _ H) as [Hq Hall].
    split; [exact Hq|]. split.
    + revert Hall. apply Forall_impl. tauto.
    + assert (Hlen : List.length rs = List.length questions)
        by (rewrite <- Hq, length_map; reflexivity).
      rewrite <- Hlen. unfold correct, attempted. clear H Hq Hlen.
      induction Hall as [|r rs' [_ Hr] _ IH]; [simpl; lia|].
      cbn [filter].
      destruct (is_correct r) as [[|]|] eqn:Ec.
      * destruct (Hr eq_refl) as [_ Hne]. apply String.eqb_neq in Hne.
        rewrite Hne. cbn [negb List.length]. lia.
      * destruct (negb (String.eqb (user_answer r) "")); cbn [List.length]; lia.
      * destruct (negb (String.eqb (user_answer r) "")); cbn [List.length]; lia.
Qed.

(** X20.  When no stored answer is empty, the saved log agrees with the
    statistics shown during practice: the results counted as attempted
    are as many as the answered questions, and the results counted as
    correct as many as the correct answers. *)
Theorem X20_log_agrees_with_statistics (exam_id : string) (questions : list Z)
    (answers : list string) (user_answers : Dict string) (question_times : Dict Q)
    (rs : list Result) (st : Statistics) :
  (forall k a, get user_answers k = Some a -> a <> "") ->
  session_results exam_id questions answers user_answers question_times = Some rs ->
  statistics exam_id questions answers user_answers = Some st ->
  attempted rs = answered st /\ correct rs = correct_count st.
Proof.
  intros Hne Hrs Hst. unfold statistics, bind in Hst.
  destruct (count_correct exam_id questions answers user_answers) as [n|] eqn:En;
    [|discriminate].
  injection Hst as <-. cbn [answered correct_count].
  revert answers rs n Hrs En. induction questions as [|q qs IH]; intros answers rs n Hrs En.
  - injection Hrs as <-. injection En as <-. split; reflexivity.
  - destruct answers as [|a rest]; [discriminate|].
    cbn [session_results count_correct] in Hrs, En. unfold bind in Hrs, En.
    destruct (session_results exam_id qs rest user_answers question_times) as [rs'|] eqn:E1;
      [|discriminate].
    destruct (count_correct exam_id qs rest user_answers) as [m|] eqn:E2; [|discriminate].
    destruct (IH rest rs' m E1 E2) as [Ha Hc].
    injection Hrs as <-. injection En as <-.
    unfold attempted, correct in *. cbn [filter user_answer is_correct].
    unfold has_key at 1.
    destruct (get user_answers (key exam_id q)) as [ua|] eqn:Eg.
    + pose proof (Hne _ _ Eg) as Hua. apply String.eqb_neq in Hua. rewrite Hua.
      cbn [negb List.length]. rewrite Ha. split; [reflexivity|].
      destruct (String.eqb ua a); cbn [List.length]; rewrite Hc; reflexivity.
    + change (String.eqb "" "") with true. cbn [negb]. split; assumption.
Qed.

Lemma X20_log_agrees_with_statistics_witness :
  attempted [mkResult 1 "A" "A" (Some true) (5 # 2); mkResult 2 "" "B" None 0;
             mkResult 3 "D" "C" (Some false) 0]
  = answered (mkStatistics 2 1 1)
  /\ correct [mkResult 1 "A" "A" (Some true) (5 # 2); mkResult 2 "" "B" None 0;
              mkResult 3 "D" "C" (Some false) 0]
     = correct_count (mkStatistics 2 1 1).
Proof.
  apply (X20_log_agrees_with_statistics "E" [1; 2; 3]%Z ["A"; "B"; "C"]
           [("E_1", "A"); ("E_3", "D")] [("E_1", 5 # 2)]).
  - intros k a H. simpl in H.
    destruct (String.eqb k "E_1"); [injection H as <-; discriminate|].
    destruct (String.eqb k "E_3"); [injection H as <-; discriminate|].
    discriminate.
  - reflexivity.
  - reflexivity.
Defined.

(** ** The quiz: keys and exam identifiers *)

Lemma string_of_uint_no_underscore (d : Decimal.uint) :
  ~ In underscore (list_ascii_of_string (NilEmpty.string_of_uint d)).
Proof.
  induction d as [|d IH|d IH|d IH|d IH|d IH|d IH|d IH|d IH|d IH|d IH];
    cbn [NilEmpty.string_of_uint list_ascii_of_string]; intros H;
    [exact H | destruct H as [H|H]; [discriminate | exact (IH H)] ..].
Qed.

Lemma str_int_no_underscore (n : Z) :
  ~ In underscore (list_ascii_of_string (str_int n)).
Proof.
  assert (Hu : forall d, ~ In underscore
                             (list_ascii_of_string (NilZero.string_of_uint d))).
  { intros d. unfold NilZero.string_of_uint. destruct d;
      try apply string_of_uint_no_underscore.
    cbn. intros [H|[]]. discriminate. }
  unfold str_int, NilZero.string_of_int.
  destruct (Z.to_int n) as [d|d]; [apply Hu|].
  cbn [list_ascii_of_string]. intros [H|H]; [discriminate | exact (Hu d H)].
Qed.

Lemma to_int_not_nil (n : Z) : Z.to_int n <> Decimal.Pos Decimal.Nil
                               /\ Z.to_int n <> Decimal.Neg Decimal.Nil.
Proof.
  destruct n as [|p|p]; cbn; split; try discriminate; intros H; injection H as H;
    exact (Unsigned.to_uint_nonnil p H).
Qed.

Lemma str_int_inj (n m : Z) : str_int n = str_int m -> n = m.
Proof.
  unfold str_int. intros H. apply to_int_inj.
  destruct (to_int_not_nil n) as [Hn1 Hn2]. destruct (to_int_not_nil m) as [Hm1 Hm2].
  pose proof (NilZero.isi _ Hn1 Hn2) as En. pose proof (NilZero.isi _ Hm1 Hm2) as Em.
  rewrite H in En. congruence.
Qed.

Lemma tagged_suffix_inj (e1 e2 d1 d2 : string) :
  ~ In underscore (list_ascii_of_string d1) ->
  ~ In underscore (list_ascii_of_string d2) ->
  (e1 ++ String underscore d1)%string = (e2 ++ String underscore d2)%string ->
  e1 = e2 /\ d1 = d2.
Proof.
  intros H1 H2. revert e2. induction e1 as [|c e1 IH]; intros e2 H.
  - destruct e2 as [|c2 e2]; cbn [append] in H.
    + injection H as H. auto.
    + injection H as Hc Hd. exfalso. apply H1. rewrite Hd.
      clear. induction e2 as [|x e2 IH]; cbn; auto.
  - destruct e2 as [|c2 e2]; cbn [append] in H.
    + injection H as Hc Hd. exfalso. apply H2. rewrite <- Hd.
      clear. induction e1 as [|x e1 IH]; cbn; auto.
    + injection H as -> H. destruct (IH e2 H) as [-> ->]. auto.
Qed.

(** X21.  The key under which an answer or a time is stored
    determines the exam and the question: two keys are equal only for
    the same exam identifier and the same question number, so answers
    of different questions or exams never overwrite each other. *)
Theorem X21_key_injective (exam1 exam2 : string) (q1 q2 : Z) :
  key exam1 q1 = key exam2 q2 -> exam1 = exam2 /\ q1 = q2.
Proof.
  unfold key. intros H.
  destruct (tagged_suffix_inj exam1 exam2 (str_int q1) (str_int q2)
              (str_int_no_underscore q1) (str_int_no_underscore q2) H) as [He Hq].
  split; [exact He | exact (str_int_inj _ _ Hq)].
Qed.

Lemma X21_key_injective_witness :
  "ENGAA_2023" = "ENGAA_2023" /\ 7%Z = 7%Z.
Proof.
  apply (X21_key_injective "ENGAA_2023" "ENGAA_2023" 7 7). reflexivity.
Defined.

Lemma split_nonempty (sep : ascii) (s : string) : split sep s <> [].
Proof.
  destruct s as [|c s]; cbn [split]; [discriminate|].
  destruct (Ascii.eqb c sep); [discriminate|].
  destruct (split sep s); discriminate.
Qed.

Lemma split_single (sep : ascii) (s : string) :
  (exists h, split sep s = [h]) <-> ~ In sep (list_ascii_of_string s).
Proof.
  induction s as [|c s IH]; cbn [split list_ascii_of_string].
  - split; [intros _ [] | eauto].
  - destruct (Ascii.eqb c sep) eqn:E.
    + apply Ascii.eqb_eq in E. subst. split.
      * intros (h & H). injection H as _ H. exfalso. exact (split_nonempty _ _ H).
      * intros H. exfalso. apply H. left. reflexivity.
    + apply Ascii.eqb_neq in E. destruct (split sep s) as [|h rest] eqn:Es.
      * exfalso. exact (split_nonempty _ _ Es).
      * split.
        -- intros (h' & H). injection H as _ ->. intros [Hc|Hin]; [congruence|].
           apply IH in Hin; [exact Hin | eauto].
        -- intros H. assert (Hs : ~ In sep (list_ascii_of_string s))
             by (intros Hin; apply H; right; exact Hin).
           apply IH in Hs as (h' & Hh). injection Hh as _ ->. eauto.
Qed.

Lemma exam_type_year_None (e : string) :
  exam_type_year e = None <-> ~ In underscore (list_ascii_of_string e).
Proof.
  unfold exam_type_year. rewrite <- (split_single underscore e).
    destruct (split underscore e) as [|h [|y rest]] eqn:E.
  - exfalso. exact (split_nonempty _ _ E).
  - split; eauto.
  - split; [discriminate|]. intros (h' & H). discriminate.
Qed.

Lemma split_prefix (sep : ascii) (t rest : string) :
  ~ In sep (list_ascii_of_string t) ->
  split sep (t ++ String sep rest)%string = t :: split sep rest.
Proof.
  induction t as [|c t IH]; intros H; cbn [append split].
  - rewrite Ascii.eqb_refl. reflexivity.
  - destruct (Ascii.eqb c sep) eqn:E.
    + apply Ascii.eqb_eq in E. exfalso. apply H. left. exact E.
    + rewrite IH; [reflexivity|]. intros Hin. apply H. right. exact Hin.
Qed.

(** X22.  The history raises an [IndexError] exactly when the
    identifier of some logged session has no underscore.  Otherwise the
    sessions kept are, in the order of the log, those whose type (the
    text before the first underscore) and year (the text up to the
    second) pass the two filters, and the filters [All] and [All] keep
    the whole log.  An identifier made of a type and a year without
    underscores is split back into exactly that type and year. *)
Theorem X22_filter_sessions (selected_type selected_year : string) (log_data : list Session) :
  (filter_sessions selected_type selected_year log_data = None <->
     exists s, In s log_data /\ ~ In underscore (list_ascii_of_string (exam_id s)))
  /\ (forall kept, filter_sessions selected_type selected_year log_data = Some kept ->
        kept = filter (session_matches selected_type selected_year) log_data)
  /\ (forall kept, filter_sessions "All" "All" log_data = Some kept -> kept = log_data)
  /\ (forall t y, ~ In underscore (list_ascii_of_string t) ->
                  ~ In underscore (list_ascii_of_string y) ->
                  exam_type_year (t ++ String underscore y)%string = Some (t, y)).
Proof.
  split; [|split; [|split]].
  - induction log_data as [|s rest IH]; cbn [filter_sessions].
    + split; [discriminate | intros (s & [] & _)].
    + unfold bind. destruct (exam_type_year (exam_id s)) as [ty|] eqn:E.
      * destruct (filter_sessions selected_type selected_year rest) as [kept|].
        -- split; [discriminate|]. intros (s' & [<-|Hin] & Hno).
           ++ apply exam_type_year_None in Hno. congruence.
           ++ assert (H : Some kept = None) by (apply IH; eauto).
              discriminate.
        -- split; [|reflexivity]. intros _.
           destruct (proj1 IH eq_refl) as (s' & Hin & Hno). exists s'. split; [right|]; auto.
      * split; [|reflexivity]. intros _. exists s. split; [left; reflexivity|].
        apply exam_type_year_None. exact E.
  - induction log_data as [|s rest IH]; intros kept H; cbn [filter_sessions] in H.
    + injection H as <-. reflexivity.
    + unfold bind in H. cbn [filter]. unfold session_matches at 1.
      destruct (exam_type_year (exam_id s)) as [[ty yr]|]; [|discriminate].
      destruct (filter_sessions selected_type selected_year rest) as [kept'|];
        [|discriminate].
      rewrite <- (IH kept' eq_refl). injection H as <-. reflexivity.
  - induction log_data as [|s rest IH]; intros kept H; cbn [filter_sessions] in H.
    + injection H as <-. reflexivity.
    + unfold bind in H.
      destruct (exam_type_year (exam_id s)) as [[ty yr]|]; [|discriminate].
      destruct (filter_sessions "All" "All" rest) as [kept'|]; [|discriminate].
      rewrite (IH kept' eq_refl) in H. injection H as <-. reflexivity.
  - intros t y Ht Hy. unfold exam_type_year.     rewrite (split_prefix _ _ _ Ht).
    destruct (proj2 (split_single underscore y) Hy) as (h & Hh).
    assert (E : h = y).
    { clear Ht. revert h Hh. induction y as [|c y IH]; intros h Hh; cbn [split] in Hh.
      - congruence.
      - destruct (Ascii.eqb c underscore) eqn:Ec.
        + apply Ascii.eqb_eq in Ec. exfalso. apply Hy. left. exact Ec.
        + destruct (split underscore y) as [|h' r] eqn:Es;
            [exfalso; exact (split_nonempty _ _ Es)|].
          injection Hh as <- ->. f_equal. apply IH; [|reflexivity].
          intros Hin. apply Hy. right. exact Hin. }
    rewrite Hh, E. reflexivity.
Qed.
